(** * License Veryfire: URL normalisation, reference lookup and comparison

    A shallow embedding of [src/main.py].  Python [str] values are lists of
    characters; a character is an 8-bit code point (the Latin-1 range, which
    contains the whole alphabet of the constants the program uses).  The
    collaborators the request handler talks to (the HTTP client, the file
    system, the SPDX matcher and the line aligner of the standard diff
    library) are fields of a [World] record, and every call to one of them is
    logged, so that statements about what was or was not attempted can be
    made. *)

From Stdlib Require Import Ascii String.
From stdpp Require Import base list sets.

Set Default Proof Using "Type".

(** ** Python strings *)

Module PyStr.

Definition str := list ascii.

(** String literals of the source. *)
Definition py (s : string) : str := list_ascii_of_string s.

Definition chr (n : nat) : ascii := ascii_of_nat n.
Definition ord (c : ascii) : nat := nat_of_ascii c.

Definition char_eqb (a b : ascii) : bool := Ascii.eqb a b.

Fixpoint str_eqb (a b : str) : bool :=
  match a, b with
  | [], [] => true
  | x :: a', y :: b' => char_eqb x y && str_eqb a' b'
  | _, _ => false
  end.

(** [str.lower()], one code point at a time: [A-Z] and the capital letters
    of the Latin-1 supplement (U+00C0..U+00DE without the multiplication
    sign U+00D7) move up by 32, everything else stays. *)
Definition lower_char (c : ascii) : ascii :=
  let n := ord c in
  if (65 <=? n) && (n <=? 90) then chr (n + 32)
  else if (192 <=? n) && (n <=? 222) && negb (n =? 215) then chr (n + 32)
  else c.

Definition lower (s : str) : str := map lower_char s.

(** [s.startswith(p)] *)
Fixpoint startswith (s p : str) {struct p} : bool :=
  match p, s with
  | [], _ => true
  | x :: p', y :: s' => char_eqb x y && startswith s' p'
  | _ :: _, [] => false
  end.

(** [s.endswith(p)]: the last [len(p)] characters of [s] are [p]. *)
Definition endswith (s p : str) : bool :=
  (length p <=? length s) && str_eqb (drop (length s - length p) s) p.

(** [sub in s] *)
Fixpoint contains (s sub : str) : bool :=
  startswith s sub ||
  match s with
  | [] => false
  | _ :: s' => contains s' sub
  end.

(** [s.replace(old, new)]: scan from the left; at a match emit [new] and
    jump over the matched characters ([skip] counts the ones still to jump
    over), so that matches never overlap.  An empty [old] matches between
    any two characters and at both ends. *)
Fixpoint replace_from (old new : str) (skip : nat) (s : str) : str :=
  match s with
  | [] => []
  | c :: s' =>
      match skip with
      | S k => replace_from old new k s'
      | O =>
          if startswith s old
          then new ++ replace_from old new (length old - 1) s'
          else c :: replace_from old new 0 s'
      end
  end.

Definition replace (s old new : str) : str :=
  match old with
  | [] => new ++ flat_map (fun c => c :: new) s
  | _ :: _ => replace_from old new 0 s
  end.

(** [any(f(x) for x in xs)] *)
Definition any {A} (f : A -> bool) (xs : list A) : bool := existsb f xs.

(** [s.splitlines()]: the line boundaries inside the 8-bit range are
    LF, VT, FF, CR, FS, GS, RS and NEL; CR LF counts once ([after_cr] says
    that the previous character was a CR), and a boundary at the very end
    opens no further line. *)
Definition is_linebreak (c : ascii) : bool :=
  let n := ord c in
  ((10 <=? n) && (n <=? 13)) || ((28 <=? n) && (n <=? 30)) || (n =? 133).

Fixpoint splitlines_from (after_cr : bool) (cur : str) (s : str) : list str :=
  match s with
  | [] => match cur with [] => [] | _ :: _ => [cur] end
  | c :: s' =>
      if (ord c =? 10) && after_cr then splitlines_from false cur s'
      else if is_linebreak c then cur :: splitlines_from (ord c =? 13) [] s'
      else splitlines_from false (cur ++ [c]) s'
  end.

Definition splitlines (s : str) : list str := splitlines_from false [] s.

(** [os.path.join(a, b)] of [posixpath]: an absolute [b] replaces [a]. *)
Definition path_join (a b : str) : str :=
  if startswith b (py "/") then b
  else if match a with [] => true | _ :: _ => endswith a (py "/") end then a ++ b
  else a ++ py "/" ++ b.

End PyStr.

Import PyStr.

(** ** The standard diff library, as far as the call in [verify_license]
    selects its behaviour *)

Module Difflib.

(** One side of a row of [_mdiff]: [(line number, text)], or the filler
    [('', '\n')] of a row whose line exists on the other side only. *)
Inductive side :=
| Line (num : nat) (text : str)
| Blank.

(** What [_line_pair_iterator] yields: [(from_line, to_line, found_diff)]. *)
Record row := Row { from_line : side; to_line : side; found_diff : bool }.

(** What [_mdiff] yields: a row, or the separator [(None, None, None)]. *)
Abbreviation item := (option row).

(** The two inner loops of the context branch of [_mdiff]. *)
Inductive phase :=
| Storing (index : nat) (contextLines : list item)
    (* [while(found_diff is False)]: rows go into the circular queue *)
| Trailing (lines_to_write : nat).
    (* [while(lines_to_write)]: rows after a change are yielded *)

(** [index, contextLines = 0, [None]*(context)] *)
Definition fresh (context : nat) : phase := Storing 0 (replicate context None).

(** Entering, or staying in, the loop [while(lines_to_write)]: when the
    counter is zero control is back at the top of [while True]. *)
Definition trailing (context lines_to_write : nat) : phase :=
  if lines_to_write =? 0 then fresh context else Trailing lines_to_write.

(** The [else] branch of [_mdiff], after [context += 1], run over the rows
    the pair iterator still has to give; when the iterator is exhausted the
    generator returns, whatever is still stored in the queue. *)
Fixpoint context_loop (context : nat) (ph : phase) (pairs : list row) : list item :=
  match pairs with
  | [] => []
  | r :: rest =>
      match ph with
      | Storing index contextLines =>
          let contextLines := <[index mod context := Some r]> contextLines in
          let index := S index in
          if found_diff r then
            let '(separator, lines_to_write, index) :=
              if context <? index then ([None], context, index)
              else ([], index, 0) in
            separator
            ++ map (fun k => default None (contextLines !! ((index + k) mod context)))
                   (seq 0 lines_to_write)
            ++ context_loop context (trailing context (context - 1)) rest
          else context_loop context (Storing index contextLines) rest
      | Trailing lines_to_write =>
          let lines_to_write :=
            if found_diff r then context - 1 else lines_to_write - 1 in
          Some r :: context_loop context (trailing context lines_to_write) rest
      end
  end.

(** [_mdiff(fromlines, tolines, context)], given the rows of its pair
    iterator. *)
Definition _mdiff (pairs : list row) (context : option nat) : list item :=
  match context with
  | None => map Some pairs
  | Some context => context_loop (context + 1) (fresh (context + 1)) pairs
  end.

(** A row of the table body.  The cells keep the line number and the text
    of the row; escaping and the navigation links of the middle column are
    rendering and are left out. *)
Inductive tr :=
| Tr (from_cell to_cell : side) (flag : bool)
| Notice (text : str)
| TbodyBreak.

(** [HtmlDiff.make_table(fromlines, tolines, fromdesc, todesc, context,
    numlines)] of an [HtmlDiff()] with its default arguments (no line
    wrapping), given the rows of the pair iterator for the two line lists:
    an empty list of flags gives the single notice row, whose two cells
    hold the notice ([_convert_flags]); a separator closes the [tbody] and
    opens the next, except at the very first position. *)
Definition make_table (pairs : list row) (context : bool) (numlines : nat) : list tr :=
  let diffs := _mdiff pairs (if context then Some numlines else None) in
  match diffs with
  | [] => [Notice (py (if context then "No Differences Found" else "Empty File"))]
  | _ :: _ =>
      concat (imap (fun i d =>
                      match d with
                      | None => if 0 <? i then [TbodyBreak] else []
                      | Some r => [Tr (from_line r) (to_line r) (found_diff r)]
                      end) diffs)
  end.

End Difflib.

(** ** The request handler's module *)

Module Main.

(** The exceptions that leave the handler: [fastapi.HTTPException], which
    the application's exception handler renders as an error page with the
    given status, and the [OSError] of an [open] that fails (a file that is
    gone again or may not be read, a directory), which nothing catches.  A
    file whose bytes do not decode makes [read] raise a [UnicodeDecodeError]
    instead; the model has no such file: what [read_file] delivers is
    text. *)
Inductive exception :=
| HTTPException (status_code : nat) (detail : str)
| OSError (path : str).

Inductive result (A : Type) :=
| Return (a : A)
| Raise (e : exception).
Arguments Return {A} a.
Arguments Raise {A} e.

(** The five [raise HTTPException(...)] of the module, by the name of the
    condition they report. *)
Definition invalid_license_url : exception :=
  HTTPException 400
    (py "The URL must point to a valid LICENSE file (e.g., LICENSE, LICENCE, license.txt) on GitHub.").

Definition fetch_failed : exception :=
  HTTPException 400
    (py "Failed to fetch the license. Please check the URL and try again.").

Definition unknown_manual_license (manual_license : str) : exception :=
  HTTPException 400 (py "Reference license '" ++ manual_license ++ py "' not found.").

Definition no_match : exception :=
  HTTPException 400
    (py "Unable to identify the license type from the provided content.").

Definition reference_not_found (spdx_id : str) : exception :=
  HTTPException 400
    (py "Reference license not found for license ID: " ++ spdx_id ++ py ".").

Definition valid_patterns : list str :=
  [py "LICENSE"; py "LICENCE"; py "license"; py "licence"].
Definition valid_extensions : list str := [py ".txt"; py ".md"; py ""].

(** The condition of the [if not any(...)] of [validate_and_map_url]: the
    generator runs over every pattern and, inside, over every extension. *)
Definition has_license_ending (url : str) : bool :=
  any (fun pattern =>
         any (fun ext => endswith (lower url) (lower pattern ++ ext))
             valid_extensions)
      valid_patterns.

Definition validate_and_map_url (url : str) : result str :=
  if negb (has_license_ending url) then Raise invalid_license_url
  else if contains url (py "github.com")
       then Return (replace (replace url (py "github.com") (py "raw.githubusercontent.com"))
                            (py "blob/") (py ""))
       else Return url.

(** *** The collaborators of the handler *)

Record World := {
  (** the module constant [LICENSES_DIR] *)
  LICENSES_DIR : str;
  (** [requests.get(url)] followed by [raise_for_status()]: the body text,
      or [None] when a [RequestException] is raised *)
  requests_get : str -> option str;
  (** [os.path.exists(path)] *)
  os_path_exists : str -> bool;
  (** [open(path, "r")] and [read()]: the content, or [None] when the
      file cannot be opened or read *)
  read_file : str -> option str;
  (** [spdx_matcher.analyse_license_text(text)]: the keys of the
      ["licenses"] entry of its first result, in dictionary order; empty
      when the entry is missing or empty *)
  analyse_license_text : str -> list str;
  (** the rows of the pair iterator of the diff library
    ([_line_pair_iterator] inside [_mdiff]) for the two lists of lines
    handed to [make_table], which expands tabs before it aligns *)
  line_pairs : list str -> list str -> list Difflib.row
}.

(** The calls to the collaborators, in the order they are made. *)
Inductive event :=
| HttpGet (url : str)
| PathExists (path : str)
| OpenRead (path : str)
| AnalyseLicenseText (text : str).

(** Computations that log their calls and may raise. *)
Definition io (A : Type) : Type := list event -> result A * list event.

Definition raise {A} (e : exception) : io A := fun log => (Raise e, log).
Definition lift {A} (r : result A) : io A := fun log => (r, log).
Definition call {A} (ev : event) (a : A) : io A := fun log => (Return a, log ++ [ev]).

#[global] Instance io_ret : MRet io := fun A a log => (Return a, log).
#[global] Instance io_bind : MBind io := fun A B k m log =>
  match m log with
  | (Return a, log') => k a log'
  | (Raise e, log') => (Raise e, log')
  end.

Definition run {A} (m : io A) : result A * list event := m [].

(** What the page of a successful comparison is made of. *)
Record page := Page { manual_message : str; diff : list Difflib.tr }.

(** The files the two branches look for. *)
Definition manual_reference_path (w : World) (manual_license : str) : str :=
  path_join (LICENSES_DIR w) manual_license.

Definition detected_reference_path (w : World) (spdx_id : str) : str :=
  path_join (LICENSES_DIR w) (spdx_id ++ py ".txt").

(** [if manual_license:] holds for a string that is given and not empty. *)
Definition truthy (manual_license : option str) : bool :=
  match manual_license with
  | Some (_ :: _) => true
  | _ => false
  end.

(** The comparison: [difflib.HtmlDiff().make_table(reference.splitlines(),
    fetched.splitlines(), ..., context=True, numlines=3)]. *)
Definition make_diff (w : World) (reference_license fetched_license : str)
  : list Difflib.tr :=
  Difflib.make_table
    (line_pairs w (splitlines reference_license) (splitlines fetched_license))
    true 3.

Definition verify_license (w : World) (license_url : str)
                          (manual_license : option str) : io page :=
  license_url ← lift (validate_and_map_url license_url);
  fetched_license ←
    (response ← call (HttpGet license_url) (requests_get w license_url);
     match response with
     | Some text => mret text
     | None => raise fetch_failed
     end);
  '(reference_file_path, spdx_id) ←
    (if truthy manual_license then
       let reference_file_path :=
         manual_reference_path w (default [] manual_license) in
       found ← call (PathExists reference_file_path)
                     (os_path_exists w reference_file_path);
       if negb found
       then raise (unknown_manual_license (default [] manual_license))
       else mret (reference_file_path, None)
     else
       licenses_detected ←
         call (AnalyseLicenseText fetched_license)
              (analyse_license_text w fetched_license);
       match licenses_detected with
       | [] => raise no_match
       | spdx_id :: _ =>
           let reference_file_path := detected_reference_path w spdx_id in
           found ← call (PathExists reference_file_path)
                         (os_path_exists w reference_file_path);
           if negb found
           then raise (reference_not_found spdx_id)
           else mret (reference_file_path, Some spdx_id)
       end);
  reference_license ←
    (content ← call (OpenRead reference_file_path) (read_file w reference_file_path);
     match content with
     | Some text => mret text
     | None => raise (OSError reference_file_path)
     end);
  let diff := make_diff w reference_license fetched_license in
  let manual_message :=
    if truthy manual_license
    then py "Manually Selected License: " ++ default [] manual_license
    else py "Detected License: " ++ default [] spdx_id in
  mret {| manual_message := manual_message; diff := diff |}.

End Main.

Import Main.

(** ** The words of the specification *)

Module Spec.



(** The host of a URL: what stands between [://] and the next slash. *)
Fixpoint after_scheme (url : str) : str :=
  match url with
  | [] => []
  | _ :: rest => if startswith url (py "://") then drop 3 url else after_scheme rest
  end.

Fixpoint up_to_slash (s : str) : str :=
  match s with
  | [] => []
  | c :: rest => if char_eqb c "/" then [] else c :: up_to_slash rest
  end.

Definition host (url : str) : str := up_to_slash (after_scheme url).





(** The identifiers of the corpus are the base names of the regular files
    of the licenses directory.  A base name is one path component: it is
    not empty, holds no slash, and is neither [.] nor [..]. *)
Definition is_base_name (name : str) : bool :=
  match name with
  | [] => false
  | _ :: _ =>
      negb (existsb (fun c => char_eqb c "/") name)
      && negb (str_eqb name (py ".")) && negb (str_eqb name (py ".."))
  end.










End Spec.

Import Spec.

(** ** Which rows a contextual table shows *)

Module Context.

Import Difflib.

(** The rows among what [_mdiff] yields, separators dropped. *)
Definition rows_of (diffs : list item) : list row := omap id diffs.

(** The rows a table shows. *)
Definition shown_rows (t : list tr) : list row :=
  flat_map (fun r => match r with
                     | Tr from_cell to_cell flag => [Row from_cell to_cell flag]
                     | _ => []
                     end) t.

(** Row [i] of an alignment lies within [numlines] rows of a changed row:
    one of the rows [i - numlines .. i + numlines] is changed. *)
Definition near_change (numlines : nat) (pairs : list row) (i : nat) : bool :=
  existsb found_diff (drop (i - numlines) (take (i + numlines + 1) pairs)).

(** The rows of an alignment that lie near a change, in order. *)
Definition near_rows (numlines : nat) (pairs : list row) : list row :=
  concat (imap (fun i r => if near_change numlines pairs i then [r] else []) pairs).

(** How many of the rows just before [l] lie within [numlines] rows of the
    first changed row of [l]. *)
Fixpoint ahead (numlines : nat) (l : list row) : nat :=
  match l with
  | [] => 0
  | r :: l' => if found_diff r then numlines else ahead numlines l' - 1
  end.

(** The rows of [l] that lie near a change, when the last changed row before
    [l] is [d] rows back from the head of [l] (any [d] above [numlines]
    stands for no such row nearby). *)
Fixpoint kept_from (numlines d : nat) (l : list row) : list row :=
  match l with
  | [] => []
  | r :: l' =>
      if found_diff r then r :: kept_from numlines 1 l'
      else if (d <=? numlines) || (0 <? ahead numlines l')
           then r :: kept_from numlines (S d) l'
           else kept_from numlines (S d) l'
  end.

(** The circular queue holds the last [context] of the rows [seen] since the
    queue was set up, each at its position modulo [context]. *)
Definition queue (context : nat) (seen : list row) (contextLines : list item) : Prop :=
  length contextLines = context
  /\ forall k r, seen !! k = Some r -> length seen - k <= context ->
       contextLines !! (k mod context) = Some (Some r).

(** [d] is the distance from the end of [pre] back to its last changed row,
    as far as distances up to [numlines] are concerned. *)
Definition distance (numlines : nat) (pre : list row) (d : nat) : Prop :=
  1 <= d
  /\ forall m, m <= numlines ->
       (d <= m <-> existsb found_diff (drop (length pre - m) pre) = true).

End Context.

Import Context.

(** ** Scenarios *)

Module Scenario.

Import Difflib.

Definition LF : str := [chr 10].

Definition mit_text : str :=
  py "MIT License" ++ LF ++ py "Permission is hereby granted, free of charge" ++ LF.

Definition apache_text : str :=
  py "Apache License" ++ LF ++ py "Version 2.0, January 2004" ++ LF.

(** A reference of six lines and a fetched copy whose last line differs. *)
Definition six_lines (last : str) : str :=
  py "l1" ++ LF ++ py "l2" ++ LF ++ py "l3" ++ LF ++ py "l4" ++ LF ++ py "l5" ++ LF
  ++ last ++ LF.

(** The rows of the pair iterator for a list of lines compared with itself:
    every line is paired with itself and no row is changed. *)
Definition unchanged_pairs (lines : list str) : list row :=
  imap (fun i l => Row (Line (S i) l) (Line (S i) l) false) lines.

(** The rows of the pair iterator for the six lines ending in [e] against
    the six lines ending in [f]: five unchanged rows and a changed one, whose
    texts carry the markers of a deleted and of an added line. *)
Definition six_line_pairs : list row :=
  unchanged_pairs [py "l1"; py "l2"; py "l3"; py "l4"; py "l5"]
  ++ [Row (Line 6 ([chr 0] ++ py "-e" ++ [chr 1]))
          (Line 6 ([chr 0] ++ py "+f" ++ [chr 1])) true].

Fixpoint str_list_eqb (a b : list str) : bool :=
  match a, b with
  | [], [] => true
  | x :: a', y :: b' => str_eqb x y && str_list_eqb a' b'
  | _, _ => false
  end.

(** A deployment whose licenses directory holds the single file [MIT.txt].
    One URL serves the MIT text, another one the Apache text; the matcher
    recognises both texts.  The aligner is given on the inputs the scenarios
    use: equal line lists, and the two six-line texts. *)
Definition deployment : World := {|
  LICENSES_DIR := py "/srv/app/licenses";
  requests_get := fun url =>
    if str_eqb url (py "https://raw.githubusercontent.com/o/mit/main/LICENSE")
    then Some mit_text
    else if str_eqb url (py "https://raw.githubusercontent.com/o/apache/main/LICENSE")
    then Some apache_text
    else None;
  os_path_exists := fun path => str_eqb path (py "/srv/app/licenses/MIT.txt");
  read_file := fun path =>
    if str_eqb path (py "/srv/app/licenses/MIT.txt") then Some mit_text else None;
  analyse_license_text := fun text =>
    if str_eqb text mit_text then [py "MIT"]
    else if str_eqb text apache_text then [py "Apache-2.0"]
    else [];
  line_pairs := fun a b =>
    if str_list_eqb a (splitlines (six_lines (py "e")))
       && str_list_eqb b (splitlines (six_lines (py "f")))
    then six_line_pairs
    else unchanged_pairs a
|}.

End Scenario.

(** ** Occurrences of a word *)

Module Words.

(** A word has a border when a proper, non-empty prefix of it is also a
    suffix of it.  Two occurrences of a word without border never overlap. *)
Definition unbordered (old : str) : Prop :=
  forall n, 0 < n < length old -> take n old <> drop (length old - n) old.

Definition unborderedb (old : str) : bool :=
  forallb (fun n => negb (str_eqb (take n old) (drop (length old - n) old)))
          (seq 1 (length old - 1)).

(** Occurrences of [old] never touch an occurrence of [w]: no occurrence of
    [old] begins before [w] and runs into it, and none begins inside [w]. *)
Definition apart (old w : str) : Prop :=
  (forall n, 0 < n < length old ->
     ~ drop n old `prefix_of` w /\ ~ w `prefix_of` drop n old)
  /\ (forall n, n < length w ->
       ~ drop n w `prefix_of` old /\ ~ old `prefix_of` drop n w).

Definition apartb (old w : str) : bool :=
  forallb (fun n => negb (startswith w (drop n old)) && negb (startswith (drop n old) w))
          (seq 1 (length old - 1))
  && forallb (fun n => negb (startswith old (drop n w)) && negb (startswith (drop n w) old))
             (seq 0 (length w)).

(** The rewrite of [validate_and_map_url], applied to any string. *)
Definition to_raw (s : str) : str :=
  replace (replace s (py "github.com") (py "raw.githubusercontent.com"))
          (py "blob/") (py "").

End Words.

Import Words.

(** ** The rest of the module: start-up, the form and the error page *)

Module Shell.

(** *** Start-up *)

(** [s.rfind(c)] for a single character: the index of its last occurrence,
    [None] for Python's [-1]. *)
Fixpoint rfind_from (c : ascii) (s : str) (i : nat) (found : option nat) : option nat :=
  match s with
  | [] => found
  | x :: s' => rfind_from c s' (S i) (if char_eqb x c then Some i else found)
  end.

Definition rfind (s : str) (c : ascii) : option nat := rfind_from c s 0 None.

(** [s.rstrip(c)] for a single character. *)
Fixpoint rstrip (c : ascii) (s : str) : str :=
  match s with
  | [] => []
  | x :: s' =>
      match rstrip c s' with
      | [] => if char_eqb x c then [] else [x]
      | r => x :: r
      end
  end.

(** [os.path.dirname(p)] of [posixpath]: everything up to the last slash,
    without trailing slashes unless it consists of slashes only. *)
Definition dirname (p : str) : str :=
  let i := match rfind p "/" with Some k => k + 1 | None => 0 end in
  let head := take i p in
  if match head with [] => false | _ :: _ => true end
     && negb (str_eqb head (replicate (length head) "/"%char))
  then rstrip "/" head
  else head.

(** What the module reads of its process: whether [sys] has the attribute
    [_MEIPASS] of a bundled executable, [sys.executable], and
    [os.path.abspath(__file__)]. *)
Record Process := {
  has_MEIPASS : bool;
  sys_executable : str;
  abspath_file : str
}.

Definition get_base_dir (p : Process) : str :=
  if has_MEIPASS p then dirname (sys_executable p)
  else dirname (abspath_file p).

(** Loading the module: it sets [BASE_DIR] and [LICENSES_DIR], or raises
    [FileNotFoundError]. *)
Inductive loading :=
| Loaded (base_dir licenses_dir : str)
| FileNotFoundError (message : str).

Definition load_module (p : Process) (path_exists : str -> bool) : loading :=
  let base_dir := get_base_dir p in
  let licenses_dir := path_join base_dir (py "licenses") in
  if negb (path_exists licenses_dir)
  then FileNotFoundError
         (py "The licenses folder is missing. Please ensure it is placed next to the executable.")
  else Loaded base_dir licenses_dir.

(** *** Pages *)

(** The text of a page template, written with [']  for the double quote. *)
Definition html (s : string) : str :=
  map (fun c => if char_eqb c "'" then chr 34 else c) (py s).

(** The lines of a template, with a line feed between any two. *)
Definition nl_join (lines : list str) : str :=
  match lines with
  | [] => []
  | l :: rest => l ++ flat_map (fun x => chr 10 :: x) rest
  end.

Definition error_page_lines (detail : str) : list str :=
  [ html "";
    html "        <!DOCTYPE html>";
    html "        <html>";
    html "        <head>";
    html "            <link rel='stylesheet' href='https://cdn.jsdelivr.net/npm/bootstrap@5.1.3/dist/css/bootstrap.min.css'>";
    html "        </head>";
    html "        <body class='p-5'>";
    html "            <h1>Error</h1>";
    html "            <p class='text-danger'>" ++ detail ++ html "</p>";
    html "            <a href='/' class='btn btn-primary mt-3'>Back</a>";
    html "        </body>";
    html "        </html>";
    html "        " ].

(** [fastapi.responses.HTMLResponse(content, status_code)] *)
Record HTMLResponse := { content : str; response_status : nat }.

(** [custom_http_exception_handler(request, exc)], given the two attributes
    of [exc] it reads. *)
Definition custom_http_exception_handler (status_code : nat) (detail : str) : HTMLResponse :=
  {| content := nl_join (error_page_lines detail); response_status := status_code |}.

(** [@app.exception_handler(HTTPException)]: the handler answers for the
    exceptions of that class; any other exception is not its business. *)
Definition answer (e : exception) : option HTMLResponse :=
  match e with
  | HTTPException status_code detail =>
      Some (custom_http_exception_handler status_code detail)
  | OSError _ => None
  end.

Definition home_page_lines (license_options : str) : list str :=
  [ html "";
    html "    <!DOCTYPE html>";
    html "    <html>";
    html "    <head>";
    html "        <link rel='stylesheet' href='https://cdn.jsdelivr.net/npm/bootstrap@5.1.3/dist/css/bootstrap.min.css'>";
    html "    </head>";
    html "    <body class='p-5'>";
    html "        <h1>License Veryfire</h1>";
    html "        <form id='licenseForm' method='POST' action='/verify'>";
    html "            <div class='mb-3'>";
    html "                <label for='licenseUrl' class='form-label'>GitHub License URL</label>";
    html "                <input type='url' class='form-control' id='licenseUrl' name='license_url' required>";
    html "            </div>";
    html "            <div class='mb-3'>";
    html "                <label for='manualLicense' class='form-label'>Select License for Comparison (Optional)</label>";
    html "                <select class='form-control' id='manualLicense' name='manual_license'>";
    html "                    <option value=''>Auto Detect</option>";
    html "                    " ++ license_options;
    html "                </select>";
    html "            </div>";
    html "            <button type='submit' class='btn btn-primary'>Verify</button>";
    html "        </form>";
    html "    </body>";
    html "    </html>";
    html "    " ].

(** What [home] asks of the file system: [os.listdir(path)], [None] when it
    raises, and [os.path.isfile(path)]. *)
Record Listing := {
  os_listdir : str -> option (list str);
  os_path_isfile : str -> bool
}.

(** One [<option>] element of the form. *)
Definition option_element (license_file : str) : str :=
  html "<option value='" ++ license_file ++ html "'>" ++ license_file ++ html "</option>".

(** The comprehension of [home]: the entries of the directory that are
    regular files. *)
Definition license_files (d : Listing) (licenses_dir : str) (entries : list str) : list str :=
  List.filter (fun f => os_path_isfile d (path_join licenses_dir f)) entries.

Definition home (d : Listing) : result str :=
  let licenses_dir := py "licenses" in
  match os_listdir d licenses_dir with
  | None => Raise (OSError licenses_dir)
  | Some entries =>
      let license_options :=
        concat (map option_element (license_files d licenses_dir entries)) in
      Return (nl_join (home_page_lines license_options))
  end.

(** *** Further scenarios *)

(** The deployment with a matcher that reports a second license for the
    MIT text. *)
Definition deployment_two_matches : World := {|
  LICENSES_DIR := LICENSES_DIR Scenario.deployment;
  requests_get := requests_get Scenario.deployment;
  os_path_exists := os_path_exists Scenario.deployment;
  read_file := read_file Scenario.deployment;
  analyse_license_text := fun text =>
    if str_eqb text Scenario.mit_text then [py "MIT"; py "X11"]
    else analyse_license_text Scenario.deployment text;
  line_pairs := line_pairs Scenario.deployment
|}.

(** The deployment with its program in view: [main.py] lies next to the
    licenses directory, where [get_base_dir] expects it, so the path
    [licenses/../main.py] exists as well.  Two lines stand for the text of
    the program.  The aligner is given on the one pair of line lists this
    scenario compares: the two lines of the program against the two lines
    of the MIT text, no line of which resembles another, so that both rows
    pair a deleted line with an added one. *)
Definition program_text : str :=
  py "from fastapi import FastAPI, HTTPException, Form" ++ Scenario.LF
  ++ py "from fastapi.responses import HTMLResponse" ++ Scenario.LF.

Definition program_pairs : list Difflib.row :=
  [ Difflib.Row
      (Difflib.Line 1 ([chr 0] ++ py "-from fastapi import FastAPI, HTTPException, Form"
                       ++ [chr 1]))
      (Difflib.Line 1 ([chr 0] ++ py "+MIT License" ++ [chr 1])) true;
    Difflib.Row
      (Difflib.Line 2 ([chr 0] ++ py "-from fastapi.responses import HTMLResponse"
                       ++ [chr 1]))
      (Difflib.Line 2 ([chr 0] ++ py "+Permission is hereby granted, free of charge"
                       ++ [chr 1])) true ].

Definition deployment_with_program : World := {|
  LICENSES_DIR := LICENSES_DIR Scenario.deployment;
  requests_get := requests_get Scenario.deployment;
  os_path_exists := fun path =>
    str_eqb path (py "/srv/app/licenses/../main.py")
    || os_path_exists Scenario.deployment path;
  read_file := fun path =>
    if str_eqb path (py "/srv/app/licenses/../main.py") then Some program_text
    else read_file Scenario.deployment path;
  analyse_license_text := analyse_license_text Scenario.deployment;
  line_pairs := fun a b =>
    if Scenario.str_list_eqb a (splitlines program_text)
       && Scenario.str_list_eqb b (splitlines Scenario.mit_text)
    then program_pairs
    else line_pairs Scenario.deployment a b
|}.

(** The program of the deployment, run from its script. *)
Definition script_process : Process := {|
  has_MEIPASS := false;
  sys_executable := py "/usr/bin/python3";
  abspath_file := py "/srv/app/main.py"
|}.

(** The working directory of the deployment, seen from [home]: its
    [licenses] entry holds the file [MIT.txt] and a sub-directory [old]. *)
Definition working_directory : Listing := {|
  os_listdir := fun path =>
    if str_eqb path (py "licenses") then Some [py "MIT.txt"; py "old"] else None;
  os_path_isfile := fun path => str_eqb path (py "licenses/MIT.txt")
|}.

End Shell.

Import Shell.

(** * Properties *)

(** ** Python strings *)

Section PyStrFacts.

Lemma char_eqb_eq (a b : ascii) : char_eqb a b = true <-> a = b.
Proof. unfold char_eqb. apply Ascii.eqb_eq. Qed.

Lemma str_eqb_eq (a b : str) : str_eqb a b = true <-> a = b.
Proof.
  revert b. induction a as [|x a IH]; intros [|y b]; simpl; [done | done | done |].
  rewrite andb_true_iff, char_eqb_eq, IH. split.
  - intros [-> ->]. done.
  - intros [= -> ->]. done.
Qed.

Lemma str_eqb_refl (a : str) : str_eqb a a = true.
Proof. by apply str_eqb_eq. Qed.

Lemma startswith_prefix (s p : str) : startswith s p = true <-> p `prefix_of` s.
Proof.
  revert s. induction p as [|x p IH]; intros s; simpl.
  - split; [intros _; apply prefix_nil | done].
  - destruct s as [|y s].
    + split; [done | intros [k Hk]; done].
    + rewrite andb_true_iff, char_eqb_eq, IH. split.
      * intros [-> Hp]. by apply prefix_cons.
      * intros [k [= -> ->]]. split; [done | by exists k].
Qed.

Lemma startswith_app (p k : str) : startswith (p ++ k) p = true.
Proof. apply startswith_prefix. by exists k. Qed.

Lemma endswith_suffix (s p : str) : endswith s p = true <-> p `suffix_of` s.
Proof.
  unfold endswith. rewrite andb_true_iff, Nat.leb_le, str_eqb_eq. split.
  - intros [_ H]. exists (take (length s - length p) s).
    rewrite <- H at 2. by rewrite take_drop.
  - intros [k ->]. rewrite length_app. split; [lia |].
    replace (length k + length p - length p) with (length k) by lia.
    by rewrite drop_app_length.
Qed.

Lemma contains_occurs (s sub : str) :
  contains s sub = true <-> exists pre post, s = pre ++ sub ++ post.
Proof.
  induction s as [|c s IH]; simpl.
  - rewrite orb_false_r, startswith_prefix. split.
    + intros [k Hk]. by exists [], k.
    + intros (pre & post & H). symmetry in H.
      apply app_eq_nil in H as [-> H]. apply app_eq_nil in H as [-> _].
      apply prefix_nil.
  - rewrite orb_true_iff, startswith_prefix, IH. split.
    + intros [[k Hk] | (pre & post & ->)].
      * by exists [], k.
      * by exists (c :: pre), post.
    + intros ([|x pre] & post & H).
      * left. by exists post.
      * injection H as -> ->. right. by exists pre, post.
Qed.

Lemma lower_app (a b : str) : lower (a ++ b) = lower a ++ lower b.
Proof. apply map_app. Qed.

End PyStrFacts.

(** ** Replacement of a word without border *)

Section Replace.

Lemma unborderedb_sound (old : str) : unborderedb old = true -> unbordered old.
Proof.
  unfold unborderedb, unbordered. rewrite forallb_forall.
  intros H n Hn E. specialize (H n). rewrite E, str_eqb_refl in H.
  discriminate H. apply in_seq. lia.
Qed.

Lemma prefix_app_short (p a b : str) :
  p `prefix_of` a ++ b -> length p <= length a -> p `prefix_of` a.
Proof.
  intros [k Hk] Hlen. exists (take (length a - length p) k).
  apply (f_equal (take (length a))) in Hk.
  rewrite take_app_length, take_app in Hk.
  rewrite (take_ge p) in Hk by lia. done.
Qed.

(** An occurrence that starts inside [pre] and runs into the occurrence that
    follows [pre] would make the two overlap. *)
Lemma no_overlap (old pre post : str) :
  unbordered old -> 0 < length pre < length old ->
  ~ old `prefix_of` pre ++ old ++ post.
Proof.
  intros Hub Hlen [k Hk].
  apply (Hub (length old - length pre)); [lia |].
  replace (length old - (length old - length pre)) with (length pre) by lia.
  assert (Hd : drop (length pre) old
               = take (length old - length pre) (drop (length pre) (old ++ k))).
  { rewrite drop_app_le by lia. rewrite take_app_length'; [done |].
    rewrite length_drop. done. }
  rewrite Hd, <- Hk, drop_app_length.
  rewrite take_app_le by lia. done.
Qed.

Lemma replace_from_skip (old new pre s : str) :
  replace_from old new (length pre) (pre ++ s) = replace_from old new 0 s.
Proof. induction pre as [|c pre IH]; simpl; done. Qed.

Lemma replace_from_occurrence (old new post : str) :
  old <> [] -> unbordered old ->
  forall pre k, k <= length pre ->
    replace_from old new k (pre ++ old ++ post)
    = replace_from old new k pre ++ new ++ replace_from old new 0 post.
Proof.
  intros Hne Hub. induction pre as [|c pre IH]; intros k Hk.
  - assert (k = 0) as -> by (simpl in Hk; lia).
    destruct old as [|x old]; [done |].
    change (([] ++ (x :: old) ++ post)) with (x :: old ++ post).
    cbn [replace_from]. change (x :: old ++ post) with ((x :: old) ++ post).
    rewrite startswith_app. cbn [length]. rewrite Nat.sub_succ, Nat.sub_0_r.
    by rewrite replace_from_skip.
  - destruct k as [|k].
    + change ((c :: pre) ++ old ++ post) with (c :: (pre ++ old ++ post)).
      cbn [replace_from].
      change (c :: (pre ++ old ++ post)) with ((c :: pre) ++ old ++ post).
      destruct (startswith ((c :: pre) ++ old ++ post) old) eqn:E.
      * apply startswith_prefix in E.
        destruct (decide (length old <= length (c :: pre))) as [Hle | Hgt].
        -- pose proof (prefix_app_short _ _ _ E Hle) as E'.
           apply startswith_prefix in E'. rewrite E'.
           rewrite IH by (simpl in Hle; lia). by rewrite app_assoc.
        -- exfalso. apply (no_overlap old (c :: pre) post Hub); [| done].
           simpl in *. lia.
      * destruct (startswith (c :: pre) old) eqn:E'.
        -- apply startswith_prefix in E'.
           assert (old `prefix_of` (c :: pre) ++ old ++ post) as E''
             by (by apply prefix_app_r).
           apply startswith_prefix in E''. congruence.
        -- rewrite IH by lia. done.
    + change ((c :: pre) ++ old ++ post) with (c :: (pre ++ old ++ post)).
      cbn [replace_from]. apply IH. simpl in Hk. lia.
Qed.

(** Wherever a word without border occurs, [replace] rewrites that
    occurrence and treats what is before and behind it on its own. *)
Lemma replace_occurrence (old new pre post : str) :
  unbordered old -> old <> [] ->
  replace (pre ++ old ++ post) old new
  = replace pre old new ++ new ++ replace post old new.
Proof.
  intros Hub Hne. destruct old as [|x old]; [done |].
  unfold replace. apply replace_from_occurrence; [done | done | lia].
Qed.

(** Without an occurrence nothing changes. *)
Lemma replace_from_absent (old new : str) (s : str) :
  contains s old = false -> replace_from old new 0 s = s.
Proof.
  induction s as [|c s IH]; [done |]. simpl.
  intros H. apply orb_false_iff in H as [H1 H2].
  change (match old with [] => true | x :: p' => char_eqb x c && startswith s p' end)
    with (startswith (c :: s) old) in *.
  rewrite H1. by rewrite IH.
Qed.

Lemma apartb_sound (old w : str) : apartb old w = true -> apart old w.
Proof.
  unfold apartb, apart. rewrite andb_true_iff, !forallb_forall.
  intros [HB HA]. split; intros n Hn.
  - specialize (HB n). rewrite andb_true_iff, !negb_true_iff in HB.
    destruct HB as [H1 H2]; [apply in_seq; lia |].
    split; intros H; apply startswith_prefix in H; congruence.
  - specialize (HA n). rewrite andb_true_iff, !negb_true_iff in HA.
    destruct HA as [H1 H2]; [apply in_seq; lia |].
    split; intros H; apply startswith_prefix in H; congruence.
Qed.

Lemma prefix_app_cases (p a b : str) :
  p `prefix_of` a ++ b -> p `prefix_of` a \/ a `prefix_of` p.
Proof.
  intros H. apply (prefix_weak_total p a (a ++ b)); [done |]. by exists b.
Qed.

(** Scanning through a word inside which no occurrence begins. *)
Lemma replace_from_through (old new post : str) (v : str) :
  (forall n, n < length v -> startswith (drop n v ++ post) old = false) ->
  replace_from old new 0 (v ++ post) = v ++ replace_from old new 0 post.
Proof.
  induction v as [|c v IH]; intros H; [done |].
  change ((c :: v) ++ post) with (c :: (v ++ post)). cbn [replace_from].
  change (c :: (v ++ post)) with (drop 0 (c :: v) ++ post).
  rewrite (H 0) by (simpl; lia). simpl. f_equal. apply IH.
  intros n Hn. apply (H (S n)). simpl. lia.
Qed.

Lemma replace_from_around (old new w post : str) :
  old <> [] -> apart old w ->
  forall pre k, k <= length pre ->
    replace_from old new k (pre ++ w ++ post)
    = replace_from old new k pre ++ w ++ replace_from old new 0 post.
Proof.
  intros Hne [HB HA]. induction pre as [|c pre IH]; intros k Hk.
  - assert (k = 0) as -> by (simpl in Hk; lia).
    destruct old as [|x old]; [done |]. simpl app at 1.
    rewrite replace_from_through; [done |].
    intros n Hn. destruct (startswith _ _) eqn:E; [| done]. exfalso.
    apply startswith_prefix, prefix_app_cases in E.
    destruct (HA n Hn). tauto.
  - destruct k as [|k].
    + change ((c :: pre) ++ w ++ post) with (c :: (pre ++ w ++ post)).
      cbn [replace_from].
      change (c :: (pre ++ w ++ post)) with ((c :: pre) ++ w ++ post).
      destruct (startswith ((c :: pre) ++ w ++ post) old) eqn:E.
      * apply startswith_prefix in E.
        destruct (decide (length old <= length (c :: pre))) as [Hle | Hgt].
        -- pose proof (prefix_app_short _ _ _ E Hle) as E'.
           apply startswith_prefix in E'. rewrite E'.
           rewrite IH by (simpl in Hle; lia). by rewrite app_assoc.
        -- exfalso. destruct E as [t Ht].
           assert (Hy : drop (length (c :: pre)) old ++ t = w ++ post).
           { apply (f_equal (drop (length (c :: pre)))) in Ht.
             rewrite drop_app_length in Ht. rewrite Ht.
             rewrite drop_app_le by lia. done. }
           assert (Hy' : drop (length (c :: pre)) old `prefix_of` w ++ post)
             by (exists t; done).
           apply prefix_app_cases in Hy'.
           destruct (HB (length (c :: pre))); [simpl in *; lia | tauto].
      * destruct (startswith (c :: pre) old) eqn:E'.
        -- apply startswith_prefix in E'.
           assert (old `prefix_of` (c :: pre) ++ w ++ post) as E''
             by (by apply prefix_app_r).
           apply startswith_prefix in E''. congruence.
        -- rewrite IH by lia. done.
    + change ((c :: pre) ++ w ++ post) with (c :: (pre ++ w ++ post)).
      cbn [replace_from]. apply IH. simpl in Hk. lia.
Qed.

(** A word that stays clear of [old] is carried over as it is. *)
Lemma replace_around (old new w pre post : str) :
  apart old w -> old <> [] ->
  replace (pre ++ w ++ post) old new = replace pre old new ++ w ++ replace post old new.
Proof.
  intros Hap Hne. destruct old as [|x old]; [done |].
  unfold replace. apply replace_from_around; [done | done | lia].
Qed.

Lemma replace_absent (s old new : str) :
  old <> [] -> contains s old = false -> replace s old new = s.
Proof.
  intros Hne H. destruct old as [|x old]; [done |].
  unfold replace. by apply replace_from_absent.
Qed.

Lemma unbordered_github : unbordered (py "github.com").
Proof. apply unborderedb_sound. vm_compute. reflexivity. Qed.

Lemma unbordered_blob : unbordered (py "blob/").
Proof. apply unborderedb_sound. vm_compute. reflexivity. Qed.

Lemma github_apart_blob : apart (py "github.com") (py "blob/").
Proof. apply apartb_sound. vm_compute. reflexivity. Qed.

Lemma blob_apart_raw : apart (py "blob/") (py "raw.githubusercontent.com").
Proof. apply apartb_sound. vm_compute. reflexivity. Qed.

(** Every occurrence of the host name is rewritten, whatever stands around
    it, and the same rewrite is applied to what stands around it. *)
Lemma to_raw_github (pre post : str) :
  to_raw (pre ++ py "github.com" ++ post)
  = to_raw pre ++ py "raw.githubusercontent.com" ++ to_raw post.
Proof.
  unfold to_raw.
  rewrite replace_occurrence by (apply unbordered_github || done).
  rewrite replace_around by (apply blob_apart_raw || done). done.
Qed.

(** Every occurrence of [blob/] is deleted, whatever stands around it. *)
Lemma to_raw_blob (pre post : str) :
  to_raw (pre ++ py "blob/" ++ post) = to_raw pre ++ to_raw post.
Proof.
  unfold to_raw.
  rewrite replace_around by (apply github_apart_blob || done).
  rewrite replace_occurrence by (apply unbordered_blob || done). done.
Qed.

End Replace.

(** ** URL validation and mapping *)

Section Validate.

Lemma has_license_ending_iff (url : str) :
  has_license_ending url = true
  <-> exists base ext,
        base ∈ [py "license"; py "licence"]
        /\ ext ∈ [py ""; py ".txt"; py ".md"]
        /\ (base ++ ext) `suffix_of` lower url.
Proof.
  unfold has_license_ending, any. rewrite existsb_exists. split.
  - intros (pattern & Hp & H). apply existsb_exists in H as (ext & He & H).
    apply endswith_suffix in H. exists (lower pattern), ext.
    split; [| split; [| done]].
    + apply list_elem_of_In. simpl in Hp.
      destruct Hp as [<- | [<- | [<- | [<- | []]]]]; vm_compute; auto.
    + apply list_elem_of_In. simpl in He.
      destruct He as [<- | [<- | [<- | []]]]; simpl; auto.
  - intros (base & ext & Hb & He & H). exists base.
    apply list_elem_of_In in Hb, He. simpl in Hb, He. split.
    + simpl. destruct Hb as [<- | [<- | []]]; tauto.
    + apply existsb_exists. exists ext. split.
      * simpl. destruct He as [<- | [<- | [<- | []]]]; tauto.
      * apply endswith_suffix. by destruct Hb as [<- | [<- | []]].
Qed.

Lemma validate_raises (url : str) :
  has_license_ending url = false -> validate_and_map_url url = Raise invalid_license_url.
Proof. unfold validate_and_map_url. by intros ->. Qed.

Lemma validate_returns (url : str) :
  has_license_ending url = true ->
  validate_and_map_url url
  = Return (if contains url (py "github.com")
            then replace (replace url (py "github.com") (py "raw.githubusercontent.com"))
                         (py "blob/") (py "")
            else url).
Proof. unfold validate_and_map_url. intros ->. simpl. by destruct (contains _ _). Qed.

Lemma validate_returns_inv (url out : str) :
  validate_and_map_url url = Return out -> has_license_ending url = true.
Proof.
  unfold validate_and_map_url. destruct (has_license_ending url); [done |].
  simpl. discriminate.
Qed.

Lemma validate_raises_inv (url : str) (e : exception) :
  validate_and_map_url url = Raise e -> e = invalid_license_url.
Proof.
  unfold validate_and_map_url.
  destruct (negb (has_license_ending url)); [congruence |].
  by destruct (contains _ _).
Qed.

Lemma validate_returns_eq (url out : str) :
  validate_and_map_url url = Return out ->
  out = if contains url (py "github.com") then to_raw url else url.
Proof.
  intros H. pose proof (validate_returns_inv _ _ H) as Hv.
  rewrite validate_returns in H by done. unfold to_raw. congruence.
Qed.











Example validate_blob :
  validate_and_map_url (py "https://github.com/o/r/blob/main/LICENSE")
  = Return (py "https://raw.githubusercontent.com/o/r/main/LICENSE").
Proof. vm_compute. reflexivity. Qed.

Example validate_readme :
  validate_and_map_url (py "https://github.com/o/r/blob/main/README.md")
  = Raise invalid_license_url.
Proof. vm_compute. reflexivity. Qed.

Example validate_unlicense :
  validate_and_map_url (py "https://example.com/UNLICENSE.TXT")
  = Return (py "https://example.com/UNLICENSE.TXT").
Proof. vm_compute. reflexivity. Qed.

End Validate.

(** ** Claims about the URL normaliser *)




(** C3, as amended.  On a URL that passes the check the rewrite is decided
    by the string, not by the host: a URL that contains [github.com]
    anywhere comes back with every [github.com] replaced by
    [raw.githubusercontent.com] and every [blob/] removed, and every other
    URL comes back as it is.  So a web URL on the host [github.com] comes
    back on the raw-content host with its path rewritten,
    [https://github.com/o/r/blob/main/LICENSE] becomes
    [https://raw.githubusercontent.com/o/r/main/LICENSE], and a raw-content
    URL whose path does not mention [github.com] is unchanged. *)
Theorem rewrite_decided_by_substring :
  (forall url out,
     validate_and_map_url url = Return out ->
     (contains url (py "github.com") = true ->
      out = replace (replace url (py "github.com") (py "raw.githubusercontent.com"))
                    (py "blob/") (py ""))
     /\ (contains url (py "github.com") = false -> out = url))
  /\ (forall path out,
        validate_and_map_url (py "https://github.com/" ++ path) = Return out ->
        out = py "https://raw.githubusercontent.com/" ++ to_raw path)
  /\ (forall path out,
        validate_and_map_url (py "https://raw.githubusercontent.com/" ++ path) = Return out ->
        contains path (py "github.com") = false ->
        out = py "https://raw.githubusercontent.com/" ++ path)
  /\ validate_and_map_url (py "https://github.com/o/r/blob/main/LICENSE")
     = Return (py "https://raw.githubusercontent.com/o/r/main/LICENSE").
Proof.
  split; [| split; [| split]].
  - intros url out H. apply validate_returns_eq in H. subst out.
    split; intros ->; done.
  - intros path out H. apply validate_returns_eq in H. subst out.
    change (py "https://github.com/" ++ path)
      with (py "https://" ++ py "github.com" ++ py "/" ++ path).
    rewrite (proj2 (contains_occurs _ _)) by eauto.
    unfold to_raw.
    assert (Hmid : replace (py "https://" ++ py "github.com" ++ py "/" ++ path)
                     (py "github.com") (py "raw.githubusercontent.com")
                   = py "https://" ++ py "raw.githubusercontent.com/"
                     ++ replace path (py "github.com") (py "raw.githubusercontent.com")).
    { rewrite replace_occurrence by (apply unbordered_github || done).
      change (py "/" ++ path) with ([] ++ py "/" ++ path).
      rewrite (replace_around (py "github.com") _ (py "/"))
        by ((apply apartb_sound; vm_compute; reflexivity) || done).
      reflexivity. }
    rewrite Hmid.
    rewrite (replace_around (py "blob/") _ (py "raw.githubusercontent.com/"))
      by ((apply apartb_sound; vm_compute; reflexivity) || done).
    reflexivity.
  - intros path out H Hc. apply validate_returns_eq in H. subst out.
    destruct (contains (py "https://raw.githubusercontent.com/" ++ path) _) eqn:E;
      [| done].
    exfalso. vm_compute in E. vm_compute in Hc. congruence.
  - vm_compute. reflexivity.
Qed.

Lemma rewrite_decided_by_substring_witness :
  validate_and_map_url (py "https://github.com/o/r/blob/v1/docs/licence.txt")
  = Return (py "https://raw.githubusercontent.com/o/r/v1/docs/licence.txt")
  /\ py "https://raw.githubusercontent.com/o/r/v1/docs/licence.txt"
     = py "https://raw.githubusercontent.com/" ++ to_raw (py "o/r/blob/v1/docs/licence.txt").
Proof.
  split; [vm_compute; reflexivity |].
  apply (proj1 (proj2 rewrite_decided_by_substring) (py "o/r/blob/v1/docs/licence.txt")).
  vm_compute. reflexivity.
Defined.

(** C3, as stated, fails: the host of this URL is [example.com], not the
    code-hosting web UI, and the URL passes the check, yet the output is not
    the input. *)
Lemma foreign_host_rewritten :
  host (py "https://example.com/mirror/github.com/LICENSE") = py "example.com"
  /\ validate_and_map_url (py "https://example.com/mirror/github.com/LICENSE")
     = Return (py "https://example.com/mirror/raw.githubusercontent.com/LICENSE")
  /\ py "https://example.com/mirror/raw.githubusercontent.com/LICENSE"
     <> py "https://example.com/mirror/github.com/LICENSE".
Proof. vm_compute. split; [reflexivity | split; [reflexivity | discriminate]]. Qed.

(** C10.  On a URL that passes the check and contains [github.com], the
    rewrite works on the whole string: wherever [github.com] occurs it is
    replaced by [raw.githubusercontent.com], wherever [blob/] occurs it is
    deleted, and what stands before and behind an occurrence is rewritten in
    the same way. *)
Theorem rewrite_covers_whole_string (url : str) :
  has_license_ending url = true ->
  contains url (py "github.com") = true ->
  validate_and_map_url url = Return (to_raw url)
  /\ (forall pre post,
        url = pre ++ py "github.com" ++ post ->
        to_raw url = to_raw pre ++ py "raw.githubusercontent.com" ++ to_raw post)
  /\ (forall pre post,
        url = pre ++ py "blob/" ++ post ->
        to_raw url = to_raw pre ++ to_raw post).
Proof.
  intros Hv Hc. split; [| split].
  - rewrite validate_returns by done. by rewrite Hc.
  - intros pre post ->. apply to_raw_github.
  - intros pre post ->. apply to_raw_blob.
Qed.

Lemma rewrite_covers_whole_string_witness :
  validate_and_map_url (py "https://github.com/blob/github.com/blob/main/LICENSE")
  = Return (py "https://raw.githubusercontent.com/raw.githubusercontent.com/main/LICENSE").
Proof.
  destruct (rewrite_covers_whole_string
              (py "https://github.com/blob/github.com/blob/main/LICENSE")) as [H _].
  - vm_compute. reflexivity.
  - vm_compute. reflexivity.
  - exact H.
Defined.

(** ** The request handler *)

Section Handler.

Variable w : World.

Ltac step_handler :=
  unfold run, verify_license, mbind, io_bind, mret, io_ret, lift, call, raise.

Lemma verify_invalid (url : str) (m : option str) (e : exception) :
  validate_and_map_url url = Raise e ->
  run (verify_license w url m) = (Raise e, []).
Proof. intros H. step_handler. by rewrite H. Qed.

Lemma verify_fetch_failed (url u : str) (m : option str) :
  validate_and_map_url url = Return u ->
  requests_get w u = None ->
  run (verify_license w url m) = (Raise fetch_failed, [HttpGet u]).
Proof. intros H1 H2. step_handler. by rewrite H1, H2. Qed.

Lemma verify_manual_missing (url u text m : str) :
  validate_and_map_url url = Return u ->
  requests_get w u = Some text ->
  m <> [] ->
  os_path_exists w (manual_reference_path w m) = false ->
  run (verify_license w url (Some m))
  = (Raise (unknown_manual_license m),
     [HttpGet u; PathExists (manual_reference_path w m)]).
Proof.
  intros H1 H2 Hm H3. destruct m as [|c m]; [done |].
  step_handler. rewrite H1, H2. simpl. by rewrite H3.
Qed.

Lemma verify_manual_found (url u text m : str) :
  validate_and_map_url url = Return u ->
  requests_get w u = Some text ->
  m <> [] ->
  os_path_exists w (manual_reference_path w m) = true ->
  run (verify_license w url (Some m))
  = (match read_file w (manual_reference_path w m) with
     | Some reference =>
         Return {| manual_message := py "Manually Selected License: " ++ m;
                   diff := make_diff w reference text |}
     | None => Raise (OSError (manual_reference_path w m))
     end,
     [HttpGet u; PathExists (manual_reference_path w m);
      OpenRead (manual_reference_path w m)]).
Proof.
  intros H1 H2 Hm H3. destruct m as [|c m]; [done |].
  step_handler. rewrite H1, H2. simpl. rewrite H3. simpl.
  by destruct (read_file w _).
Qed.

Lemma verify_no_match (url u text : str) (m : option str) :
  truthy m = false ->
  validate_and_map_url url = Return u ->
  requests_get w u = Some text ->
  analyse_license_text w text = [] ->
  run (verify_license w url m)
  = (Raise no_match, [HttpGet u; AnalyseLicenseText text]).
Proof.
  intros Hm H1 H2 H3. step_handler. rewrite H1, H2, Hm. simpl. by rewrite H3.
Qed.

Lemma verify_detected_missing (url u text spdx_id : str) (rest : list str) (m : option str) :
  truthy m = false ->
  validate_and_map_url url = Return u ->
  requests_get w u = Some text ->
  analyse_license_text w text = spdx_id :: rest ->
  os_path_exists w (detected_reference_path w spdx_id) = false ->
  run (verify_license w url m)
  = (Raise (reference_not_found spdx_id),
     [HttpGet u; AnalyseLicenseText text;
      PathExists (detected_reference_path w spdx_id)]).
Proof.
  intros Hm H1 H2 H3 H4. step_handler. rewrite H1, H2, Hm. simpl. rewrite H3.
  simpl. by rewrite H4.
Qed.

Lemma verify_detected_found (url u text spdx_id : str) (rest : list str) (m : option str) :
  truthy m = false ->
  validate_and_map_url url = Return u ->
  requests_get w u = Some text ->
  analyse_license_text w text = spdx_id :: rest ->
  os_path_exists w (detected_reference_path w spdx_id) = true ->
  run (verify_license w url m)
  = (match read_file w (detected_reference_path w spdx_id) with
     | Some reference =>
         Return {| manual_message := py "Detected License: " ++ spdx_id;
                   diff := make_diff w reference text |}
     | None => Raise (OSError (detected_reference_path w spdx_id))
     end,
     [HttpGet u; AnalyseLicenseText text;
      PathExists (detected_reference_path w spdx_id);
      OpenRead (detected_reference_path w spdx_id)]).
Proof.
  intros Hm H1 H2 H3 H4. step_handler. rewrite H1, H2, Hm. simpl. rewrite H3.
  simpl. rewrite H4. simpl. by destruct (read_file w _).
Qed.

(** The five errors of the handler are told apart by their messages. *)
Lemma reference_not_found_distinct (spdx_id : str) :
  reference_not_found spdx_id <> no_match
  /\ reference_not_found spdx_id <> invalid_license_url
  /\ reference_not_found spdx_id <> fetch_failed
  /\ forall m, reference_not_found spdx_id <> unknown_manual_license m.
Proof.
  unfold reference_not_found, no_match, invalid_license_url, fetch_failed,
    unknown_manual_license.
  split; [| split; [| split; [| intros m]]]; intros H;
    apply (f_equal (fun e => match e with
                             | HTTPException _ d => d !! 18
                             | OSError _ => None
                             end)) in H;
    vm_compute in H; discriminate H.
Qed.

Lemma unknown_manual_license_distinct (m : str) :
  unknown_manual_license m <> no_match
  /\ unknown_manual_license m <> invalid_license_url
  /\ unknown_manual_license m <> fetch_failed.
Proof.
  unfold no_match, invalid_license_url, fetch_failed, unknown_manual_license.
  split; [| split]; intros H;
    apply (f_equal (fun e => match e with
                             | HTTPException _ d => d !! 0
                             | OSError _ => None
                             end)) in H;
    vm_compute in H; discriminate H.
Qed.

Lemma last_txt (x : str) : last (x ++ py ".txt") = Some "t"%char.
Proof.
  change (py ".txt") with (py ".tx" ++ ["t"%char]).
  by rewrite app_assoc, last_snoc.
Qed.

Lemma detected_path_last (spdx_id : str) :
  last (detected_reference_path w spdx_id) = Some "t"%char.
Proof.
  unfold detected_reference_path, path_join.
  destruct (startswith _ _); [apply last_txt |].
  destruct (match LICENSES_DIR w with [] => true | _ :: _ => _ end).
  - rewrite app_assoc. apply last_txt.
  - rewrite !app_assoc. apply last_txt.
Qed.

Lemma manual_path_empty_last : last (manual_reference_path w []) <> Some "t"%char.
Proof.
  unfold manual_reference_path, path_join. simpl startswith. cbv iota.
  destruct (LICENSES_DIR w) as [|c d] eqn:E; [done |].
  destruct (endswith (c :: d) (py "/")) eqn:Es.
  - apply endswith_suffix in Es as [k ->].
    change (py "/") with ["/"%char]. rewrite app_nil_r, last_snoc. done.
  - change (py "/" ++ []) with ["/"%char]. rewrite last_snoc. done.
Qed.

Lemma empty_lookup_differs (spdx_id : str) :
  PathExists (detected_reference_path w spdx_id) <> PathExists (manual_reference_path w []).
Proof.
  intros [= H]. apply manual_path_empty_last. rewrite <- H. apply detected_path_last.
Qed.

End Handler.

(** ** Claims about the request handler *)

Import Scenario.

Ltac only_event H :=
  repeat (apply elem_of_cons in H as [H | H]);
  try (by apply elem_of_nil in H); try discriminate H.

(** C6.  The file name check comes before every call: a URL that fails it
    makes the request fail with the invalid-URL error with no call made at
    all, and whenever a fetch is attempted, it is a fetch of the URL the
    check returned. *)
Theorem url_check_precedes_fetch (w : World) (url : str) (m : option str) :
  (has_license_ending url = false ->
   run (verify_license w url m) = (Raise invalid_license_url, []))
  /\ (forall u, HttpGet u ∈ (run (verify_license w url m)).2 ->
                validate_and_map_url url = Return u).
Proof.
  split.
  - intros H. apply verify_invalid, validate_raises, H.
  - intros u H. destruct (validate_and_map_url url) as [u0 | e] eqn:Hv.
    2: { rewrite (verify_invalid w url m e Hv) in H. simpl in H.
         by apply elem_of_nil in H. }
    destruct (requests_get w u0) as [text |] eqn:Hg.
    2: { rewrite (verify_fetch_failed w url u0 m Hv Hg) in H. simpl in H.
         only_event H. congruence. }
    destruct (truthy m) eqn:Hm.
    + destruct m as [[|c m] |]; try discriminate Hm.
      destruct (os_path_exists w (manual_reference_path w (c :: m))) eqn:He.
      * rewrite (verify_manual_found w url u0 text (c :: m) Hv Hg) in H by done.
        simpl in H. only_event H. congruence.
      * rewrite (verify_manual_missing w url u0 text (c :: m) Hv Hg) in H by done.
        simpl in H. only_event H. congruence.
    + destruct (analyse_license_text w text) as [|spdx_id rest] eqn:Ha.
      * rewrite (verify_no_match w url u0 text m Hm Hv Hg Ha) in H.
        simpl in H. only_event H. congruence.
      * destruct (os_path_exists w (detected_reference_path w spdx_id)) eqn:He.
        -- rewrite (verify_detected_found w url u0 text spdx_id rest m Hm Hv Hg Ha He) in H.
           simpl in H. only_event H. congruence.
        -- rewrite (verify_detected_missing w url u0 text spdx_id rest m Hm Hv Hg Ha He) in H.
           simpl in H. only_event H. congruence.
Qed.

Lemma url_check_precedes_fetch_witness :
  run (verify_license deployment (py "https://github.com/o/mit/blob/main/README.md")
                      (Some (py "MIT.txt")))
  = (Raise invalid_license_url, []).
Proof.
  apply (proj1 (url_check_precedes_fetch deployment
                  (py "https://github.com/o/mit/blob/main/README.md")
                  (Some (py "MIT.txt")))).
  vm_compute. reflexivity.
Defined.

(** C7 does not hold of the handler.  The manual name is never looked up
    among the entries of the licenses directory: it is joined to the
    directory's path and the joined path is tested with [os.path.exists].
    Once the URL has passed the check and the text is fetched, the request
    fails with the unknown-manual-license error exactly when nothing exists
    at the joined path; whenever something does, be it a file outside the
    directory or a sub-directory, the handler goes on to open it, and a file
    it can read is compared with the fetched text. *)
Theorem manual_lookup_tests_joined_path_only (w : World) (url u text name : str) :
  validate_and_map_url url = Return u ->
  requests_get w u = Some text ->
  name <> [] ->
  ((run (verify_license w url (Some name))).1 = Raise (unknown_manual_license name)
   <-> os_path_exists w (path_join (LICENSES_DIR w) name) = false)
  /\ (os_path_exists w (path_join (LICENSES_DIR w) name) = true ->
      (run (verify_license w url (Some name))).2
      = [HttpGet u; PathExists (path_join (LICENSES_DIR w) name);
         OpenRead (path_join (LICENSES_DIR w) name)])
  /\ (forall reference,
        os_path_exists w (path_join (LICENSES_DIR w) name) = true ->
        read_file w (path_join (LICENSES_DIR w) name) = Some reference ->
        (run (verify_license w url (Some name))).1
        = Return {| manual_message := py "Manually Selected License: " ++ name;
                    diff := make_diff w reference text |}).
Proof.
  intros Hv Hg Hne. fold (manual_reference_path w name).
  destruct (os_path_exists w (manual_reference_path w name)) eqn:He.
  - rewrite (verify_manual_found w url u text name Hv Hg Hne He). simpl.
    split; [| split; [done |]].
    + split; [| discriminate]. by destruct (read_file w _).
    + by intros reference _ ->.
  - rewrite (verify_manual_missing w url u text name Hv Hg Hne He). simpl.
    split; [done | split; [discriminate |]]. intros reference H. discriminate H.
Qed.

(** The failing request: the manual name [../main.py] is no base name, so
    no entry of the licenses directory carries it; the path it is joined to
    exists, and the program's text is compared with the fetched license. *)
Lemma manual_lookup_tests_joined_path_only_witness :
  is_base_name (py "../main.py") = false
  /\ (run (verify_license deployment_with_program
                          (py "https://github.com/o/mit/blob/main/LICENSE")
                          (Some (py "../main.py")))).1
     = Return {| manual_message := py "Manually Selected License: ../main.py";
                 diff := [Difflib.Tr
                            (Difflib.Line 1
                               ([chr 0]
                                ++ py "-from fastapi import FastAPI, HTTPException, Form"
                                ++ [chr 1]))
                            (Difflib.Line 1 ([chr 0] ++ py "+MIT License" ++ [chr 1]))
                            true;
                          Difflib.Tr
                            (Difflib.Line 2
                               ([chr 0] ++ py "-from fastapi.responses import HTMLResponse"
                                ++ [chr 1]))
                            (Difflib.Line 2
                               ([chr 0]
                                ++ py "+Permission is hereby granted, free of charge"
                                ++ [chr 1]))
                            true] |}.
Proof.
  split; [vm_compute; reflexivity |].
  refine (proj2 (proj2 (manual_lookup_tests_joined_path_only deployment_with_program
                          (py "https://github.com/o/mit/blob/main/LICENSE")
                          (py "https://raw.githubusercontent.com/o/mit/main/LICENSE")
                          mit_text (py "../main.py") _ _ _))
                program_text _ _).
  - vm_compute. reflexivity.
  - vm_compute. reflexivity.
  - discriminate.
  - vm_compute. reflexivity.
  - vm_compute. reflexivity.
Defined.

(** C8.  With no manual selection, a license the matcher has detected still
    makes the request fail when the licenses directory has no file named
    after it with [.txt] appended: the matcher's answer is used as it comes.
    The error carries its own message, which is neither the no-match message
    nor the unknown-manual-license message. *)
Theorem detected_license_without_reference
    (w : World) (url u text spdx_id : str) (rest : list str) (m : option str) :
  truthy m = false ->
  validate_and_map_url url = Return u ->
  requests_get w u = Some text ->
  analyse_license_text w text = spdx_id :: rest ->
  os_path_exists w (path_join (LICENSES_DIR w) (spdx_id ++ py ".txt")) = false ->
  run (verify_license w url m)
  = (Raise (HTTPException 400
              (py "Reference license not found for license ID: " ++ spdx_id ++ py ".")),
     [HttpGet u; AnalyseLicenseText text;
      PathExists (path_join (LICENSES_DIR w) (spdx_id ++ py ".txt"))])
  /\ reference_not_found spdx_id <> no_match
  /\ forall manual, reference_not_found spdx_id <> unknown_manual_license manual.
Proof.
  intros Hm Hv Hg Ha He. split.
  - by apply (verify_detected_missing w url u text spdx_id rest m).
  - pose proof (reference_not_found_distinct spdx_id). tauto.
Qed.

Lemma detected_license_without_reference_witness :
  run (verify_license deployment (py "https://github.com/o/apache/blob/main/LICENSE") None)
  = (Raise (HTTPException 400
              (py "Reference license not found for license ID: Apache-2.0.")),
     [HttpGet (py "https://raw.githubusercontent.com/o/apache/main/LICENSE");
      AnalyseLicenseText apache_text;
      PathExists (py "/srv/app/licenses/Apache-2.0.txt")]).
Proof.
  refine (proj1 (detected_license_without_reference deployment
                   (py "https://github.com/o/apache/blob/main/LICENSE")
                   (py "https://raw.githubusercontent.com/o/apache/main/LICENSE")
                   apache_text (py "Apache-2.0") [] None _ _ _ _ _));
    vm_compute; reflexivity.
Defined.

(** C9.  A manual license that is present but empty is handled as an absent
    one: the two requests behave alike in every world.  So detection runs
    once the text is fetched, the licenses directory is never asked for the
    empty name, and the unknown-manual-license error is never raised. *)
Theorem empty_manual_license_is_none (w : World) (url : str) :
  verify_license w url (Some []) = verify_license w url None
  /\ (forall u text,
        validate_and_map_url url = Return u ->
        requests_get w u = Some text ->
        AnalyseLicenseText text ∈ (run (verify_license w url (Some []))).2)
  /\ (PathExists (manual_reference_path w []) ∉ (run (verify_license w url (Some []))).2)
  /\ forall manual,
       (run (verify_license w url (Some []))).1 <> Raise (unknown_manual_license manual).
Proof.
  split; [reflexivity |].
  assert (Hm : truthy (Some []) = false) by reflexivity.
  destruct (validate_and_map_url url) as [u0 | e] eqn:Hv.
  2: { rewrite (verify_invalid w url _ e Hv). simpl.
       split; [discriminate | split; [apply not_elem_of_nil |]].
       apply validate_raises_inv in Hv as ->.
       intros manual H. apply (f_equal (fun r => match r with
                                                 | Raise e => e
                                                 | Return _ => no_match
                                                 end)) in H.
       symmetry in H. by apply unknown_manual_license_distinct in H. }
  destruct (requests_get w u0) as [text |] eqn:Hg.
  2: { rewrite (verify_fetch_failed w url u0 _ Hv Hg). simpl.
       split; [intros u text [= <-]; congruence |].
       split; [intros H; only_event H |].
       intros manual H. apply (f_equal (fun r => match r with
                                                 | Raise e => e
                                                 | Return _ => no_match
                                                 end)) in H.
       symmetry in H. by apply unknown_manual_license_distinct in H. }
  destruct (analyse_license_text w text) as [|spdx_id rest] eqn:Ha.
  { rewrite (verify_no_match w url u0 text _ Hm Hv Hg Ha). simpl.
    split; [intros u t [= <-] Hg'; rewrite Hg in Hg'; injection Hg' as <-;
            apply list_elem_of_further, list_elem_of_here |].
    split; [intros H; only_event H |].
    intros manual H. apply (f_equal (fun r => match r with
                                              | Raise e => e
                                              | Return _ => fetch_failed
                                              end)) in H.
    symmetry in H. by apply unknown_manual_license_distinct in H. }
  destruct (os_path_exists w (detected_reference_path w spdx_id)) eqn:He.
  - rewrite (verify_detected_found w url u0 text spdx_id rest _ Hm Hv Hg Ha He). simpl.
    split; [intros u t [= <-] Hg'; rewrite Hg in Hg'; injection Hg' as <-;
            apply list_elem_of_further, list_elem_of_here |].
    split; [intros H; only_event H; symmetry in H; by apply empty_lookup_differs in H |].
    intros manual. by destruct (read_file w _).
  - rewrite (verify_detected_missing w url u0 text spdx_id rest _ Hm Hv Hg Ha He). simpl.
    split; [intros u t [= <-] Hg'; rewrite Hg in Hg'; injection Hg' as <-;
            apply list_elem_of_further, list_elem_of_here |].
    split; [intros H; only_event H; symmetry in H; by apply empty_lookup_differs in H |].
    intros manual H. apply (f_equal (fun r => match r with
                                              | Raise e => e
                                              | Return _ => no_match
                                              end)) in H.
    by apply reference_not_found_distinct in H.
Qed.

Lemma empty_manual_license_is_none_witness :
  AnalyseLicenseText mit_text
  ∈ (run (verify_license deployment (py "https://github.com/o/mit/blob/main/LICENSE")
                         (Some []))).2.
Proof.
  refine (proj1 (proj2 (empty_manual_license_is_none deployment
                          (py "https://github.com/o/mit/blob/main/LICENSE")))
                (py "https://raw.githubusercontent.com/o/mit/main/LICENSE")
                mit_text _ _);
    vm_compute; reflexivity.
Defined.

(** C4, as amended.  The two lookups do not share their names: a manual
    selection is looked up under the name as it is given, a detected
    identifier under the identifier with [.txt] appended.  So the manual
    selection of [id.txt] and the detection of [id] look for the same file,
    succeed together and compare against the same reference. *)
Theorem manual_name_carries_extension
    (w : World) (url u text spdx_id : str) (rest : list str) :
  validate_and_map_url url = Return u ->
  requests_get w u = Some text ->
  analyse_license_text w text = spdx_id :: rest ->
  manual_reference_path w (spdx_id ++ py ".txt") = detected_reference_path w spdx_id
  /\ ((exists p, (run (verify_license w url (Some (spdx_id ++ py ".txt" : str)))).1 = Return p)
      <-> (exists p, (run (verify_license w url None)).1 = Return p))
  /\ (forall p1 p2,
        (run (verify_license w url (Some (spdx_id ++ py ".txt" : str)))).1 = Return p1 ->
        (run (verify_license w url None)).1 = Return p2 ->
        diff p1 = diff p2).
Proof.
  intros Hv Hg Ha.
  assert (Hne : spdx_id ++ py ".txt" <> []) by (by destruct spdx_id).
  assert (Hp : manual_reference_path w (spdx_id ++ py ".txt")
               = detected_reference_path w spdx_id) by reflexivity.
  split; [exact Hp |].
  destruct (os_path_exists w (detected_reference_path w spdx_id)) eqn:He.
  - rewrite (verify_manual_found w url u text _ Hv Hg Hne) by (by rewrite Hp).
    rewrite (verify_detected_found w url u text spdx_id rest None eq_refl Hv Hg Ha He).
    rewrite Hp. simpl. destruct (read_file w _) as [reference |].
    + split; [split; eauto |]. by intros p1 p2 [= <-] [= <-].
    + split; [split; intros [p H]; discriminate H | discriminate].
  - rewrite (verify_manual_missing w url u text _ Hv Hg Hne) by (by rewrite Hp).
    rewrite (verify_detected_missing w url u text spdx_id rest None eq_refl Hv Hg Ha He).
    simpl. split; [split; intros [p H]; discriminate H | discriminate].
Qed.

Lemma manual_name_carries_extension_witness :
  (exists p, (run (verify_license deployment
                     (py "https://github.com/o/mit/blob/main/LICENSE")
                     (Some (py "MIT" ++ py ".txt" : str)))).1 = Return p)
  <-> (exists p, (run (verify_license deployment
                         (py "https://github.com/o/mit/blob/main/LICENSE") None)).1
                 = Return p).
Proof.
  refine (proj1 (proj2 (manual_name_carries_extension deployment
                          (py "https://github.com/o/mit/blob/main/LICENSE")
                          (py "https://raw.githubusercontent.com/o/mit/main/LICENSE")
                          mit_text (py "MIT") [] _ _ _)));
    vm_compute; reflexivity.
Defined.

(** C4, as stated, fails: with the single file [MIT.txt] in the licenses
    directory, the manual selection of [MIT] is not found while the
    detection of [MIT] finds its reference and is compared. *)
Lemma manual_and_detected_names_differ :
  (run (verify_license deployment (py "https://github.com/o/mit/blob/main/LICENSE")
                       (Some (py "MIT")))).1
  = Raise (unknown_manual_license (py "MIT"))
  /\ (run (verify_license deployment (py "https://github.com/o/mit/blob/main/LICENSE")
                          None)).1
     = Return {| manual_message := py "Detected License: MIT";
                 diff := [Difflib.Notice (py "No Differences Found")] |}.
Proof. split; vm_compute; reflexivity. Qed.

(** ** The context loop of the diff library *)

Section ContextLoop.

Import Difflib.

Lemma rows_of_app (x y : list item) : rows_of (x ++ y) = rows_of x ++ rows_of y.
Proof. apply omap_app. Qed.

Lemma rows_of_cons (r : row) (x : list item) : rows_of (Some r :: x) = r :: rows_of x.
Proof. reflexivity. Qed.

Lemma rows_of_some (l : list row) : rows_of (map Some l) = l.
Proof. induction l as [|r l IH]; [done |]. simpl. by rewrite IH. Qed.

Lemma queue_fresh (context : nat) : queue context [] (replicate context None).
Proof. split; [apply length_replicate | intros k r H; done]. Qed.

Lemma fresh_storing (context : nat) :
  fresh context = Storing (length (@nil row)) (replicate context None).
Proof. reflexivity. Qed.

Lemma mod_differs (a b c : nat) : a < b -> b < a + c -> a mod c <> b mod c.
Proof.
  intros H1 H2 E.
  pose proof (Nat.div_mod_eq a c) as Ha. pose proof (Nat.div_mod_eq b c) as Hb.
  rewrite E in Ha.
  assert (b - a = c * (b / c - a / c)) as Hd by nia.
  destruct (b / c - a / c) as [|q]; nia.
Qed.

Lemma queue_insert (context : nat) (seen : list row) (buf : list item) (r : row) :
  0 < context -> queue context seen buf ->
  queue context (seen ++ [r]) (<[length seen mod context := Some r]> buf).
Proof.
  intros Hc [Hlen Hq]. split; [by rewrite length_insert |].
  intros k x Hk Hd. rewrite length_app in Hd. simpl in Hd.
  destruct (decide (k = length seen)) as [-> | Hne].
  - rewrite list_lookup_middle in Hk by done. injection Hk as <-.
    apply list_lookup_insert_eq. rewrite Hlen. apply Nat.mod_upper_bound. lia.
  - assert (k < length seen).
    { apply lookup_lt_Some in Hk. rewrite length_app in Hk. simpl in Hk. lia. }
    rewrite lookup_app_l in Hk by done.
    rewrite list_lookup_insert_ne by (apply not_eq_sym, mod_differs; lia).
    apply Hq; [done | lia].
Qed.

(** What the loop [while(lines_to_write)] over the queue yields once a
    changed row has gone in: the last [context] of the rows seen. *)
Lemma queue_emit (context : nat) (seen : list row) (buf : list item) :
  0 < context -> queue context seen buf ->
  map (fun k => default None
                  (buf !! (((if context <? length seen then length seen else 0) + k)
                           mod context)))
      (seq 0 (if context <? length seen then context else length seen))
  = map Some (drop (length seen - context) seen).
Proof.
  intros Hc [Hlen Hq].
  apply list_eq. intros i. rewrite !list_lookup_fmap.
  destruct (Nat.ltb_spec context (length seen)) as [Hlt | Hge].
  - destruct (decide (i < context)) as [Hi | Hi].
    + rewrite lookup_seq_lt by done. simpl.
      rewrite lookup_drop.
      destruct (lookup_lt_is_Some_2 seen (length seen - context + i)) as [x Hx]; [lia |].
      rewrite Hx. simpl. f_equal.
      replace (length seen + i) with (length seen - context + i + 1 * context) by lia.
      rewrite Nat.Div0.mod_add. rewrite (Hq _ x Hx) by lia. done.
    + rewrite lookup_seq_ge by lia. simpl.
      rewrite lookup_drop, lookup_ge_None_2 by lia. done.
  - replace (length seen - context) with 0 by lia. rewrite drop_0.
    destruct (decide (i < length seen)) as [Hi | Hi].
    + rewrite lookup_seq_lt by done. simpl.
      destruct (lookup_lt_is_Some_2 seen i) as [x Hx]; [lia |].
      rewrite Hx. simpl. f_equal. rewrite (Hq _ x Hx) by lia. done.
    + rewrite lookup_seq_ge by lia. simpl.
      rewrite lookup_ge_None_2 by lia. done.
Qed.

(** Without a changed row the loop never leaves the queue. *)
Lemma context_loop_unchanged (context : nat) (l : list row) :
  Forall (fun r => found_diff r = false) l ->
  forall index buf, context_loop context (Storing index buf) l = [].
Proof.
  induction 1 as [|r l Hr _ IH]; intros index buf; [done |].
  simpl. rewrite Hr. apply IH.
Qed.

Lemma kept_from_far (numlines : nat) (l : list row) :
  forall d d', numlines < d -> numlines < d' ->
    kept_from numlines d l = kept_from numlines d' l.
Proof.
  induction l as [|r l IH]; intros d d' Hd Hd'; [done |]. simpl.
  destruct (found_diff r); [done |].
  rewrite (proj2 (Nat.leb_gt d numlines)), (proj2 (Nat.leb_gt d' numlines)) by done.
  simpl. rewrite (IH (S d) (S d')) by lia. done.
Qed.

Lemma drop_snoc_window (seen : list row) (r : row) (a : nat) :
  drop (length seen + 1 - a) (seen ++ [r])
  = drop (length seen - (a - 1)) seen ++ (if 0 <? a then [r] else []).
Proof.
  destruct a as [|a].
  - rewrite (drop_ge (seen ++ [r])) by (rewrite length_app; simpl; lia).
    rewrite (drop_ge seen) by (simpl; lia). done.
  - rewrite drop_app_le by lia. simpl. f_equal. f_equal. lia.
Qed.

(** The loop, started in either of its two inner loops, yields the rows the
    two rules keep: a row counts from the last change behind it and from
    the first change ahead of it. *)
Lemma context_loop_kept (numlines : nat) (l : list row) :
  (forall seen buf,
     queue (S numlines) seen buf ->
     rows_of (context_loop (S numlines) (Storing (length seen) buf) l)
     = drop (length seen - ahead numlines l) seen ++ kept_from numlines (S numlines) l)
  /\ (forall k, 1 <= k <= numlines ->
        rows_of (context_loop (S numlines) (Trailing k) l)
        = kept_from numlines (S numlines - k) l).
Proof.
  induction l as [|r l [IHs IHt]].
  { split; [intros seen buf _ | intros k _]; simpl.
    - by rewrite Nat.sub_0_r, drop_all.
    - done. }
  assert (Hafter : rows_of (context_loop (S numlines)
                              (trailing (S numlines) (S numlines - 1)) l)
                   = kept_from numlines 1 l).
  { unfold trailing. rewrite Nat.sub_succ, Nat.sub_0_r.
    destruct numlines as [|n]; simpl Nat.eqb; cbv iota.
    - rewrite fresh_storing, (IHs [] _ (queue_fresh 1)). done.
    - rewrite IHt by lia. by replace (S (S n) - S n) with 1 by lia. }
  split.
  - intros seen buf Hq.
    pose proof (queue_insert (S numlines) seen buf r ltac:(lia) Hq) as Hq'.
    cbn [context_loop ahead kept_from]. destruct (found_diff r) eqn:Hr.
    + pose proof (queue_emit (S numlines) (seen ++ [r]) _ ltac:(lia) Hq') as He.
      rewrite length_app in He. simpl length in He.
      replace (length seen + 1) with (S (length seen)) in He by lia.
      destruct (S numlines <? S (length seen)) eqn:Hlt;
        cbv beta iota zeta;
        rewrite !rows_of_app, He, rows_of_some, Hafter;
        change (rows_of [None]) with (@nil row); change (rows_of []) with (@nil row);
        replace (S (length seen) - S numlines) with (length seen + 1 - S numlines) by lia;
        rewrite drop_snoc_window; simpl; rewrite Nat.sub_0_r;
        by rewrite <- app_assoc.
    + replace (S (length seen)) with (length (seen ++ [r]))
        by (rewrite length_app; simpl; lia).
      rewrite (IHs _ _ Hq').
      rewrite (proj2 (Nat.leb_gt (S numlines) numlines)) by lia. simpl orb.
      rewrite length_app. simpl length. rewrite drop_snoc_window.
      rewrite (kept_from_far numlines l (S (S numlines)) (S numlines)) by lia.
      rewrite <- app_assoc. by destruct (0 <? ahead numlines l).
  - intros k Hk. cbn [context_loop kept_from]. destruct (found_diff r) eqn:Hr.
    + by rewrite rows_of_cons, Hafter.
    + rewrite (proj2 (Nat.leb_le (S numlines - k) numlines)) by lia. simpl orb.
      rewrite rows_of_cons. f_equal. unfold trailing.
      destruct (Nat.eqb_spec (k - 1) 0) as [H0 | H0].
      * rewrite fresh_storing, (IHs [] _ (queue_fresh _)). simpl.
        by replace (S (S numlines - k)) with (S numlines) by lia.
      * rewrite IHt by lia.
        by replace (S numlines - (k - 1)) with (S (S numlines - k)) by lia.
Qed.

Lemma ahead_gt (numlines : nat) (l : list row) :
  forall j, j < ahead numlines l
            <-> existsb found_diff (take (numlines - j) l) = true.
Proof.
  induction l as [|r l IH]; intros j; simpl.
  - rewrite take_nil. simpl. split; [lia | discriminate].
  - destruct (found_diff r) eqn:Hr.
    + destruct (numlines - j) as [|q] eqn:Hq; simpl; rewrite ?Hr; simpl.
      * split; [lia | discriminate].
      * split; [done | lia].
    + assert (Hs : j < ahead numlines l - 1 <-> S j < ahead numlines l) by lia.
      rewrite Hs, IH.
      destruct (numlines - j) as [|q] eqn:Hq; simpl; rewrite ?Hr; simpl.
      * by replace (numlines - S j) with 0 by lia.
      * by replace (numlines - S j) with q by lia.
Qed.

Lemma distance_nil (numlines : nat) : distance numlines [] (S numlines).
Proof.
  split; [lia |]. intros m Hm. rewrite drop_nil. simpl.
  split; [lia | discriminate].
Qed.

Lemma distance_changed (numlines : nat) (pre : list row) (r : row) :
  found_diff r = true -> distance numlines (pre ++ [r]) 1.
Proof.
  intros Hr. split; [lia |]. intros m Hm. rewrite length_app. simpl length.
  destruct m as [|m].
  - rewrite drop_ge by (rewrite length_app; simpl; lia). simpl.
    split; [lia | discriminate].
  - rewrite drop_app_le by lia. rewrite existsb_app. simpl. rewrite Hr.
    rewrite orb_true_r. split; [done | lia].
Qed.

Lemma distance_unchanged (numlines : nat) (pre : list row) (r : row) (d : nat) :
  found_diff r = false -> distance numlines pre d ->
  distance numlines (pre ++ [r]) (S d).
Proof.
  intros Hr [Hd H]. split; [lia |]. intros m Hm. rewrite length_app. simpl length.
  destruct m as [|m].
  - rewrite drop_ge by (rewrite length_app; simpl; lia). simpl.
    split; [lia | discriminate].
  - rewrite drop_app_le by lia. rewrite existsb_app. simpl. rewrite Hr.
    rewrite !orb_false_r.
    replace (length pre + 1 - S m) with (length pre - m) by lia.
    rewrite <- (H m) by lia. lia.
Qed.

(** The row behind [pre] is near a change when it is changed itself, when
    the last change in [pre] is close enough, or when the next change is. *)
Lemma near_change_middle (numlines : nat) (pre : list row) (r : row) (l : list row) (d : nat) :
  distance numlines pre d ->
  near_change numlines (pre ++ r :: l) (length pre)
  = found_diff r || (d <=? numlines) || (0 <? ahead numlines l).
Proof.
  intros [Hd H]. unfold near_change.
  replace (length pre + numlines + 1) with (length pre + S numlines) by lia.
  rewrite take_app_add. simpl take.
  rewrite drop_app_le by lia. rewrite existsb_app. simpl existsb.
  assert (E1 : existsb found_diff (drop (length pre - numlines) pre) = (d <=? numlines)).
  { apply Bool.eq_true_iff_eq. rewrite <- (H numlines) by lia.
    by rewrite Nat.leb_le. }
  assert (E2 : existsb found_diff (take numlines l) = (0 <? ahead numlines l)).
  { apply Bool.eq_true_iff_eq. rewrite Nat.ltb_lt, (ahead_gt numlines l 0).
    by rewrite Nat.sub_0_r. }
  rewrite E1, E2.
  destruct (found_diff r), (d <=? numlines), (0 <? ahead numlines l); reflexivity.
Qed.

Lemma kept_from_near (numlines : nat) (l : list row) :
  forall pre d,
    distance numlines pre d ->
    kept_from numlines d l
    = concat (imap (fun i r => if near_change numlines (pre ++ l) (length pre + i)
                               then [r] else []) l).
Proof.
  induction l as [|r l IH]; intros pre d Hd; [done |].
  rewrite imap_cons. simpl concat.
  rewrite Nat.add_0_r, (near_change_middle numlines pre r l d Hd).
  assert (Htail : forall d', distance numlines (pre ++ [r]) d' ->
            kept_from numlines d' l
            = concat (imap ((fun i r0 =>
                               if near_change numlines (pre ++ r :: l) (length pre + i)
                               then [r0] else []) ∘ S) l)).
  { intros d' Hd'. rewrite (IH (pre ++ [r]) d' Hd'). f_equal.
    apply imap_ext. intros i x _. simpl.
    rewrite <- app_assoc, length_app. simpl.
    by replace (length pre + 1 + i) with (length pre + S i) by lia. }
  simpl kept_from. destruct (found_diff r) eqn:Hr.
  - simpl. f_equal. apply Htail. by apply distance_changed.
  - simpl orb.
    rewrite <- (Htail (S d)) by (by apply distance_unchanged).
    by destruct ((d <=? numlines) || (0 <? ahead numlines l)).
Qed.

(** The rows of a contextual [_mdiff] are the rows of the alignment that lie
    within [numlines] rows of a changed row. *)
Lemma mdiff_context_rows (pairs : list row) (numlines : nat) :
  rows_of (_mdiff pairs (Some numlines)) = near_rows numlines pairs.
Proof.
  unfold _mdiff. rewrite Nat.add_1_r, fresh_storing.
  rewrite (proj1 (context_loop_kept numlines pairs) [] _ (queue_fresh _)).
  simpl. unfold near_rows.
  rewrite (kept_from_near numlines pairs [] (S numlines) (distance_nil _)).
  done.
Qed.

Lemma mdiff_context_unchanged (pairs : list row) (numlines : nat) :
  Forall (fun r => found_diff r = false) pairs ->
  _mdiff pairs (Some numlines) = [].
Proof. intros H. unfold _mdiff, fresh. by apply context_loop_unchanged. Qed.

Lemma shown_rows_app (x y : list tr) : shown_rows (x ++ y) = shown_rows x ++ shown_rows y.
Proof. unfold shown_rows. apply flat_map_app. Qed.

Lemma shown_rows_imap (diffs : list item) :
  forall f : nat -> item -> list tr,
    (forall i d, shown_rows (f i d) = rows_of [d]) ->
    shown_rows (concat (imap f diffs)) = rows_of diffs.
Proof.
  induction diffs as [|d diffs IH]; intros f Hf; [done |].
  rewrite imap_cons. simpl concat. rewrite shown_rows_app, Hf, IH.
  - by destruct d.
  - intros i x. apply Hf.
Qed.

(** The rows a table shows are the rows [_mdiff] yields. *)
Lemma make_table_rows (pairs : list row) (numlines : nat) :
  shown_rows (make_table pairs true numlines) = near_rows numlines pairs.
Proof.
  rewrite <- mdiff_context_rows. unfold make_table.
  destruct (_mdiff pairs (Some numlines)) as [|d diffs] eqn:E; [done |].
  apply shown_rows_imap. intros i [[f t c] |]; simpl; [done |].
  by destruct (0 <? i).
Qed.



Lemma select_elem {A} (l : list A) :
  forall (g : nat -> bool) i x,
    l !! i = Some x -> g i = true ->
    x ∈ concat (imap (fun i x => if g i then [x] else []) l).
Proof.
  induction l as [|y l IH]; intros g i x Hi Hg; [done |].
  rewrite imap_cons. simpl concat. apply elem_of_app. destruct i as [|i].
  - left. injection Hi as ->. rewrite Hg. apply list_elem_of_here.
  - right. apply (IH (g ∘ S) i x); done.
Qed.


Lemma near_change_self (numlines : nat) (pairs : list row) (i : nat) (r : row) :
  pairs !! i = Some r -> found_diff r = true -> near_change numlines pairs i = true.
Proof.
  intros Hi Hr. unfold near_change. apply existsb_exists. exists r. split; [| done].
  apply list_elem_of_In, (list_elem_of_lookup_2 _ (i - (i - numlines))).
  rewrite lookup_drop.
  replace (i - numlines + (i - (i - numlines))) with i by lia.
  rewrite lookup_take_lt by lia. done.
Qed.

Lemma near_rows_changed (numlines : nat) (pairs : list row) (r : row) :
  r ∈ pairs -> found_diff r = true -> r ∈ near_rows numlines pairs.
Proof.
  intros [i Hi]%list_elem_of_lookup_1 Hr.
  apply (select_elem pairs (near_change numlines pairs) i r Hi).
  by apply (near_change_self numlines pairs i r).
Qed.









End ContextLoop.

(** ** Claims about the comparison *)







(** * Further properties of the module *)

(** ** The normaliser keeps what it has checked *)

Section NormaliserClosure.

Lemma lower_drop (n : nat) (s : str) : lower (drop n s) = drop n (lower s).
Proof. unfold lower. by rewrite <- fmap_drop. Qed.

Lemma lower_prefix (a b : str) : a `prefix_of` b -> lower a `prefix_of` lower b.
Proof. intros [k ->]. exists (lower k). apply lower_app. Qed.

Lemma length_lower (s : str) : length (lower s) = length s.
Proof. apply length_map. Qed.

(** A lower-case word that stays clear of the lower-case form of [w] stays
    clear of [w] in every letter case. *)
Lemma apart_lower (old w : str) :
  lower old = old -> apart old (lower w) -> apart old w.
Proof.
  intros Hold [HB HA]. split; intros n Hn.
  - destruct (HB n Hn) as [H1 H2]. split; intros H; apply lower_prefix in H;
      rewrite lower_drop, Hold in H; tauto.
  - rewrite <- length_lower in Hn. destruct (HA n Hn) as [H1 H2].
    split; intros H; apply lower_prefix in H;
      rewrite lower_drop, Hold in H; tauto.
Qed.

Lemma license_endings_apart (base ext : str) :
  base ∈ [py "license"; py "licence"] ->
  ext ∈ [py ""; py ".txt"; py ".md"] ->
  apart (py "github.com") (base ++ ext) /\ apart (py "blob/") (base ++ ext).
Proof.
  intros Hb He. apply list_elem_of_In in Hb, He. simpl in Hb, He.
  destruct Hb as [<- | [<- | []]]; destruct He as [<- | [<- | [<- | []]]];
    split; apply apartb_sound; vm_compute; reflexivity.
Qed.

(** The rewrite leaves alone an ending that spells a license file name. *)
Lemma to_raw_keeps_ending (pre w base ext : str) :
  base ∈ [py "license"; py "licence"] ->
  ext ∈ [py ""; py ".txt"; py ".md"] ->
  lower w = base ++ ext ->
  to_raw (pre ++ w) = to_raw pre ++ w.
Proof.
  intros Hb He Hw. destruct (license_endings_apart base ext Hb He) as [Hg Hl].
  rewrite <- Hw in Hg, Hl.
  apply apart_lower in Hg; [| reflexivity]. apply apart_lower in Hl; [| reflexivity].
  unfold to_raw. rewrite <- (app_nil_r w) at 1.
  rewrite (replace_around (py "github.com") _ w) by done.
  change (replace [] (py "github.com") (py "raw.githubusercontent.com")) with (@nil ascii).
  rewrite (replace_around (py "blob/") _ w) by done.
  change (replace [] (py "blob/") (py "")) with (@nil ascii).
  by rewrite app_nil_r.
Qed.

Lemma split_at_ending (url k e : str) :
  lower url = k ++ e ->
  exists pre w, url = pre ++ w /\ lower w = e.
Proof.
  intros H. exists (take (length k) url), (drop (length k) url).
  split; [by rewrite take_drop |].
  rewrite lower_drop, H. by rewrite drop_app_length.
Qed.

End NormaliserClosure.

(** X1.  What the normaliser returns passes the check again: the rewrite
    never touches the ending that made the URL valid, so normalising the
    output of a successful normalisation never raises. *)
Theorem normalised_url_is_valid (url out : str) :
  validate_and_map_url url = Return out ->
  has_license_ending out = true
  /\ exists out', validate_and_map_url out = Return out'.
Proof.
  intros H. assert (Hout : has_license_ending out = true).
  { pose proof (validate_returns_inv _ _ H) as Hv.
    apply validate_returns_eq in H.
    destruct (contains url (py "github.com")); [| by subst out].
    apply has_license_ending_iff in Hv as (base & ext & Hb & He & [k Hk]).
    destruct (split_at_ending url k (base ++ ext) Hk) as (pre & w & -> & Hw).
    rewrite (to_raw_keeps_ending pre w base ext Hb He Hw) in H. subst out.
    apply has_license_ending_iff. exists base, ext. split; [done | split; [done |]].
    exists (lower (to_raw pre)). by rewrite lower_app, Hw. }
  split; [done |]. rewrite validate_returns by done. eauto.
Qed.

Lemma normalised_url_is_valid_witness :
  has_license_ending (py "https://raw.githubusercontent.com/o/r/main/docs/LICENCE.md") = true.
Proof.
  refine (proj1 (normalised_url_is_valid
                   (py "https://github.com/o/r/blob/main/docs/LICENCE.md") _ _)).
  vm_compute. reflexivity.
Defined.

(** ** Every run of the handler *)

Section Runs.

Variable w : World.

(** The seven ways a request can go, each with its result and its calls. *)
Lemma verify_cases (url : str) (m : option str) :
  (validate_and_map_url url = Raise invalid_license_url
   /\ run (verify_license w url m) = (Raise invalid_license_url, []))
  \/ (exists u,
        validate_and_map_url url = Return u /\ requests_get w u = None
        /\ run (verify_license w url m) = (Raise fetch_failed, [HttpGet u]))
  \/ (exists u text name,
        validate_and_map_url url = Return u /\ requests_get w u = Some text
        /\ m = Some name /\ name <> []
        /\ os_path_exists w (manual_reference_path w name) = false
        /\ run (verify_license w url m)
           = (Raise (unknown_manual_license name),
              [HttpGet u; PathExists (manual_reference_path w name)]))
  \/ (exists u text name,
        validate_and_map_url url = Return u /\ requests_get w u = Some text
        /\ m = Some name /\ name <> []
        /\ os_path_exists w (manual_reference_path w name) = true
        /\ run (verify_license w url m)
           = (match read_file w (manual_reference_path w name) with
              | Some reference =>
                  Return {| manual_message := py "Manually Selected License: " ++ name;
                            diff := make_diff w reference text |}
              | None => Raise (OSError (manual_reference_path w name))
              end,
              [HttpGet u; PathExists (manual_reference_path w name);
               OpenRead (manual_reference_path w name)]))
  \/ (exists u text,
        validate_and_map_url url = Return u /\ requests_get w u = Some text
        /\ truthy m = false /\ analyse_license_text w text = []
        /\ run (verify_license w url m)
           = (Raise no_match, [HttpGet u; AnalyseLicenseText text]))
  \/ (exists u text spdx_id rest,
        validate_and_map_url url = Return u /\ requests_get w u = Some text
        /\ truthy m = false /\ analyse_license_text w text = spdx_id :: rest
        /\ os_path_exists w (detected_reference_path w spdx_id) = false
        /\ run (verify_license w url m)
           = (Raise (reference_not_found spdx_id),
              [HttpGet u; AnalyseLicenseText text;
               PathExists (detected_reference_path w spdx_id)]))
  \/ (exists u text spdx_id rest,
        validate_and_map_url url = Return u /\ requests_get w u = Some text
        /\ truthy m = false /\ analyse_license_text w text = spdx_id :: rest
        /\ os_path_exists w (detected_reference_path w spdx_id) = true
        /\ run (verify_license w url m)
           = (match read_file w (detected_reference_path w spdx_id) with
              | Some reference =>
                  Return {| manual_message := py "Detected License: " ++ spdx_id;
                            diff := make_diff w reference text |}
              | None => Raise (OSError (detected_reference_path w spdx_id))
              end,
              [HttpGet u; AnalyseLicenseText text;
               PathExists (detected_reference_path w spdx_id);
               OpenRead (detected_reference_path w spdx_id)])).
Proof.
  destruct (validate_and_map_url url) as [u | e] eqn:Hv.
  2: { left. apply validate_raises_inv in Hv as He. subst e.
       split; [done |]. by apply verify_invalid. }
  right. destruct (requests_get w u) as [text |] eqn:Hg.
  2: { left. exists u. split; [done | split; [done |]]. by apply verify_fetch_failed. }
  right. destruct (truthy m) eqn:Hm.
  - destruct m as [[|c name] |]; try discriminate Hm.
    destruct (os_path_exists w (manual_reference_path w (c :: name))) eqn:He.
    + right. left. exists u, text, (c :: name).
      repeat (split; [done |]). by apply (verify_manual_found w url u text).
    + left. exists u, text, (c :: name).
      repeat (split; [done |]). by apply (verify_manual_missing w url u text).
  - right. right. destruct (analyse_license_text w text) as [|spdx_id rest] eqn:Ha.
    + left. exists u, text. repeat (split; [done |]). by apply verify_no_match.
    + right. destruct (os_path_exists w (detected_reference_path w spdx_id)) eqn:He.
      * right. exists u, text, spdx_id, rest. repeat (split; [done |]).
        by apply (verify_detected_found w url u text spdx_id rest).
      * left. exists u, text, spdx_id, rest. repeat (split; [done |]).
        by apply (verify_detected_missing w url u text spdx_id rest).
Qed.

End Runs.

Ltac run_cases w url m :=
  destruct (verify_cases w url m)
    as [[Hv Hrun]
       | [(u0 & Hv & Hg & Hrun)
         | [(u0 & text0 & name0 & Hv & Hg & Hm & Hne & He & Hrun)
           | [(u0 & text0 & name0 & Hv & Hg & Hm & Hne & He & Hrun)
             | [(u0 & text0 & Hv & Hg & Hm & Ha & Hrun)
               | [(u0 & text0 & id0 & rest0 & Hv & Hg & Hm & Ha & He & Hrun)
                 | (u0 & text0 & id0 & rest0 & Hv & Hg & Hm & Ha & He & Hrun)]]]]]].

(** X2.  Every [HTTPException] that leaves the handler has status 400 and
    carries one of the five messages of the module: the invalid URL, the
    failed fetch, the unknown manual license with the name as submitted, the
    text no license was recognised in, the detected license without a
    reference.  It is raised before any file is opened. *)
Theorem reported_failures_have_status_400
    (w : World) (url : str) (m : option str) (status_code : nat) (detail : str) :
  (run (verify_license w url m)).1 = Raise (HTTPException status_code detail) ->
  status_code = 400
  /\ (HTTPException status_code detail = invalid_license_url
      \/ HTTPException status_code detail = fetch_failed
      \/ (exists name, m = Some name /\ name <> []
                       /\ HTTPException status_code detail = unknown_manual_license name)
      \/ (truthy m = false /\ HTTPException status_code detail = no_match)
      \/ (exists spdx_id, truthy m = false
                          /\ HTTPException status_code detail
                             = reference_not_found spdx_id))
  /\ forall path, OpenRead path ∉ (run (verify_license w url m)).2.
Proof.
  run_cases w url m; rewrite Hrun; simpl; intros H.
  - injection H as <- <-. split; [done | split; [by left |]].
    intros path Hin. by apply elem_of_nil in Hin.
  - injection H as <- <-. split; [done | split; [by right; left |]].
    intros path Hin. only_event Hin.
  - injection H as <- <-. split; [done | split].
    + right. right. left. by exists name0.
    + intros path Hin. only_event Hin.
  - by destruct (read_file w _).
  - injection H as <- <-. split; [done | split; [by right; right; right; left |]].
    intros path Hin. only_event Hin.
  - injection H as <- <-. split; [done | split].
    + right. right. right. right. by exists id0.
    + intros path Hin. only_event Hin.
  - by destruct (read_file w _).
Qed.

Lemma reported_failures_have_status_400_witness :
  (run (verify_license deployment (py "https://example.com/gone/LICENSE") None)).1
  = Raise fetch_failed
  /\ forall path,
       OpenRead path
       ∉ (run (verify_license deployment (py "https://example.com/gone/LICENSE") None)).2.
Proof.
  split; [vm_compute; reflexivity |].
  apply (reported_failures_have_status_400 deployment
           (py "https://example.com/gone/LICENSE") None 400
           (py "Failed to fetch the license. Please check the URL and try again.")).
  vm_compute. reflexivity.
Defined.

(** X3.  The handler opens at most one file, as its last call, and only a
    path that [os.path.exists] has just confirmed. *)
Theorem reads_follow_a_positive_check
    (w : World) (url : str) (m : option str) (path : str) :
  OpenRead path ∈ (run (verify_license w url m)).2 ->
  os_path_exists w path = true
  /\ exists before,
       (run (verify_license w url m)).2 = before ++ [PathExists path; OpenRead path]
       /\ forall q, OpenRead q ∉ before.
Proof.
  run_cases w url m; rewrite Hrun; simpl; intros H; only_event H.
  - injection H as ->. split; [done |]. exists [HttpGet u0]. split; [done |].
    intros q Hq. only_event Hq.
  - injection H as ->. split; [done |]. exists [HttpGet u0; AnalyseLicenseText text0].
    split; [done |]. intros q Hq. only_event Hq.
Qed.

Lemma reads_follow_a_positive_check_witness :
  os_path_exists deployment (py "/srv/app/licenses/MIT.txt") = true.
Proof.
  refine (proj1 (reads_follow_a_positive_check deployment
                   (py "https://github.com/o/mit/blob/main/LICENSE") None
                   (py "/srv/app/licenses/MIT.txt") _)).
  vm_compute. do 3 apply list_elem_of_further. apply list_elem_of_here.
Defined.

(** X4.  The matcher is consulted exactly when no manual license is given
    and the fetch has succeeded, and what it is given is the fetched text: a
    manual selection bypasses detection altogether. *)
Theorem matcher_runs_iff_no_manual_selection
    (w : World) (url : str) (m : option str) (text : str) :
  AnalyseLicenseText text ∈ (run (verify_license w url m)).2
  <-> truthy m = false
      /\ exists u, validate_and_map_url url = Return u /\ requests_get w u = Some text.
Proof.
  split.
  - run_cases w url m; rewrite Hrun; simpl; intros H; only_event H;
      injection H as ->; eauto.
  - intros [Hm' (u' & Hv' & Hg')].
    run_cases w url m; rewrite Hrun; simpl;
      try (rewrite Hv in Hv'; first [discriminate Hv' | injection Hv' as <-]);
      try (rewrite Hg in Hg'; first [discriminate Hg' | injection Hg' as <-]);
      try (subst m; destruct name0; [done | discriminate Hm']);
      apply list_elem_of_further, list_elem_of_here.
Qed.

(** X5.  A page is only ever produced from a successful fetch of the
    normalised URL and an existing, readable reference file: its table is
    the comparison of that file's content with the fetched text, and its
    heading names the manual selection or the first detected identifier,
    whichever chose the file. *)
Theorem page_compares_fetched_with_reference
    (w : World) (url : str) (m : option str) (p : page) :
  (run (verify_license w url m)).1 = Return p ->
  exists u text path reference,
    validate_and_map_url url = Return u
    /\ requests_get w u = Some text
    /\ os_path_exists w path = true
    /\ read_file w path = Some reference
    /\ diff p = make_diff w reference text
    /\ ((exists name,
           m = Some name /\ name <> []
           /\ path = path_join (LICENSES_DIR w) name
           /\ manual_message p = py "Manually Selected License: " ++ name)
        \/ (truthy m = false
            /\ exists spdx_id rest,
                 analyse_license_text w text = spdx_id :: rest
                 /\ path = path_join (LICENSES_DIR w) (spdx_id ++ py ".txt")
                 /\ manual_message p = py "Detected License: " ++ spdx_id)).
Proof.
  run_cases w url m; rewrite Hrun; simpl; intros H; try discriminate H.
  - destruct (read_file w _) as [reference |] eqn:Hr; [| discriminate H].
    injection H as <-. exists u0, text0, (manual_reference_path w name0), reference.
    repeat (split; [done |]). left. exists name0. done.
  - destruct (read_file w _) as [reference |] eqn:Hr; [| discriminate H].
    injection H as <-. exists u0, text0, (detected_reference_path w id0), reference.
    repeat (split; [done |]). right. split; [done |]. exists id0, rest0. done.
Qed.

Lemma page_compares_fetched_with_reference_witness :
  exists u text path reference,
    validate_and_map_url (py "https://github.com/o/mit/blob/main/LICENSE") = Return u
    /\ requests_get deployment u = Some text
    /\ os_path_exists deployment path = true
    /\ read_file deployment path = Some reference
    /\ [Difflib.Notice (py "No Differences Found")] = make_diff deployment reference text
    /\ ((exists name,
           Some (py "MIT.txt") = Some name /\ name <> []
           /\ path = path_join (LICENSES_DIR deployment) name
           /\ py "Manually Selected License: MIT.txt"
              = py "Manually Selected License: " ++ name)
        \/ (truthy (Some (py "MIT.txt")) = false
            /\ exists spdx_id rest,
                 analyse_license_text deployment text = spdx_id :: rest
                 /\ path = path_join (LICENSES_DIR deployment) (spdx_id ++ py ".txt")
                 /\ py "Manually Selected License: MIT.txt"
                    = py "Detected License: " ++ spdx_id)).
Proof.
  apply (page_compares_fetched_with_reference deployment
           (py "https://github.com/o/mit/blob/main/LICENSE") (Some (py "MIT.txt"))
           {| manual_message := py "Manually Selected License: MIT.txt";
              diff := [Difflib.Notice (py "No Differences Found")] |}).
  vm_compute. reflexivity.
Defined.

(** X6.  A manual license given as an absolute path is looked up as that
    path: the licenses directory plays no part, and once the URL is fetched
    any readable file of the host is compared against the fetched text. *)
Theorem absolute_manual_path_leaves_directory
    (w : World) (url u text name content : str) :
  startswith name (py "/") = true ->
  validate_and_map_url url = Return u ->
  requests_get w u = Some text ->
  os_path_exists w name = true ->
  read_file w name = Some content ->
  manual_reference_path w name = name
  /\ run (verify_license w url (Some name))
     = (Return {| manual_message := py "Manually Selected License: " ++ name;
                  diff := make_diff w content text |},
        [HttpGet u; PathExists name; OpenRead name]).
Proof.
  intros Hs Hv Hg He Hr.
  assert (Hp : manual_reference_path w name = name).
  { unfold manual_reference_path, path_join. by rewrite Hs. }
  split; [done |].
  assert (Hne : name <> []) by (by destruct name).
  rewrite (verify_manual_found w url u text name Hv Hg Hne) by (by rewrite Hp).
  by rewrite Hp, Hr.
Qed.

Lemma absolute_manual_path_leaves_directory_witness :
  manual_reference_path deployment (py "/srv/app/licenses/MIT.txt")
  = py "/srv/app/licenses/MIT.txt".
Proof.
  refine (proj1 (absolute_manual_path_leaves_directory deployment
                   (py "https://github.com/o/apache/blob/main/LICENSE")
                   (py "https://raw.githubusercontent.com/o/apache/main/LICENSE")
                   apache_text (py "/srv/app/licenses/MIT.txt") mit_text _ _ _ _ _));
    vm_compute; reflexivity.
Defined.

(** X7.  Of the licenses the matcher reports only the first one counts: two
    matchers that agree on the first identifier of every text give the same
    response and the same calls, whatever else they report. *)
Theorem only_first_detected_license_counts
    (w1 w2 : World) (url : str) (m : option str) :
  LICENSES_DIR w1 = LICENSES_DIR w2 ->
  (forall u, requests_get w1 u = requests_get w2 u) ->
  (forall path, os_path_exists w1 path = os_path_exists w2 path) ->
  (forall path, read_file w1 path = read_file w2 path) ->
  (forall a b, line_pairs w1 a b = line_pairs w2 a b) ->
  (forall text, head (analyse_license_text w1 text) = head (analyse_license_text w2 text)) ->
  run (verify_license w1 url m) = run (verify_license w2 url m).
Proof.
  intros Hd Hget Hex Hrd Hlp Han.
  assert (Hdiff : forall r t, make_diff w1 r t = make_diff w2 r t).
  { intros r t. unfold make_diff. by rewrite Hlp. }
  assert (Hmp : forall n, manual_reference_path w1 n = manual_reference_path w2 n).
  { intros n. unfold manual_reference_path. by rewrite Hd. }
  assert (Hdp : forall n, detected_reference_path w1 n = detected_reference_path w2 n).
  { intros n. unfold detected_reference_path. by rewrite Hd. }
  run_cases w1 url m; rewrite Hrun.
  - symmetry. by apply verify_invalid.
  - symmetry. apply verify_fetch_failed; [done |]. by rewrite <- Hget.
  - subst m. rewrite Hmp. symmetry.
    apply (verify_manual_missing w2 url u0 text0); [done | by rewrite <- Hget | done |].
    by rewrite <- Hmp, <- Hex.
  - subst m. rewrite Hmp, Hrd. symmetry.
    rewrite (verify_manual_found w2 url u0 text0 name0);
      [| done | by rewrite <- Hget | done | by rewrite <- Hmp, <- Hex].
    destruct (read_file w2 _); [| done]. by rewrite Hdiff.
  - symmetry. apply verify_no_match; [done | done | by rewrite <- Hget |].
    specialize (Han text0). rewrite Ha in Han.
    by destruct (analyse_license_text w2 text0).
  - specialize (Han text0). rewrite Ha in Han.
    destruct (analyse_license_text w2 text0) as [|id2 rest2] eqn:Ha2; [done |].
    injection Han as <-. rewrite Hdp. symmetry.
    apply (verify_detected_missing w2 url u0 text0 id0 rest2);
      [done | done | by rewrite <- Hget | done | by rewrite <- Hdp, <- Hex].
  - specialize (Han text0). rewrite Ha in Han.
    destruct (analyse_license_text w2 text0) as [|id2 rest2] eqn:Ha2; [done |].
    injection Han as <-. rewrite Hdp, Hrd. symmetry.
    rewrite (verify_detected_found w2 url u0 text0 id0 rest2);
      [| done | done | by rewrite <- Hget | done | by rewrite <- Hdp, <- Hex].
    destruct (read_file w2 _); [| done]. by rewrite Hdiff.
Qed.

(** ** What the comparison does not see *)

Section Lines.

Lemma ord_lf : ord (chr 10) = 10.
Proof. reflexivity. Qed.

Lemma linebreak_of_lf (c : ascii) : (ord c =? 10) = true -> is_linebreak c = true.
Proof. unfold is_linebreak. intros H. apply Nat.eqb_eq in H. by rewrite H. Qed.

Lemma ord_inj (c : ascii) (n : nat) : ord c = n -> c = chr n.
Proof. unfold ord, chr. intros <-. by rewrite ascii_nat_embedding. Qed.

(** A line feed behind an unfinished line only finishes that line. *)
Lemma splitlines_from_final_lf (s : str) :
  forall after_cr cur,
    match last s with
    | Some c => is_linebreak c = false
    | None => cur <> []
    end ->
    splitlines_from after_cr cur (s ++ [chr 10]) = splitlines_from after_cr cur s.
Proof.
  induction s as [|c s IH]; intros after_cr cur H.
  - simpl in H. destruct cur as [|x cur]; [done |].
    simpl. by destruct after_cr.
  - assert (Hnext : forall ac cur',
              (s = [] -> cur' <> []) ->
              splitlines_from ac cur' (s ++ [chr 10]) = splitlines_from ac cur' s).
    { intros ac cur' Hc. apply IH. destruct s as [|d s']; [by apply Hc |].
      change (last (c :: d :: s')) with (last (d :: s')) in H.
      destruct (last (d :: s')) eqn:El; [exact H | by apply last_None in El]. }
    assert (Hlast : s = [] -> is_linebreak c = false).
    { intros ->. exact H. }
    change ((c :: s) ++ [chr 10]) with (c :: (s ++ [chr 10])). simpl.
    destruct ((ord c =? 10) && after_cr) eqn:E1.
    + apply Hnext. intros Hs. apply andb_true_iff in E1 as [E1 _].
      apply linebreak_of_lf in E1. pose proof (Hlast Hs). congruence.
    + destruct (is_linebreak c) eqn:E2.
      * f_equal. apply Hnext. intros Hs. pose proof (Hlast Hs). congruence.
      * apply Hnext. intros _. by destruct cur.
Qed.

(** Python's [text.replace("\n", "\r\n")] in a text without carriage
    returns gives the same lines. *)
Lemma splitlines_from_crlf (s : str) :
  chr 13 ∉ s ->
  forall cur,
    splitlines_from false cur (replace s [chr 10] [chr 13; chr 10])
    = splitlines_from false cur s.
Proof.
  unfold replace. induction s as [|c s IH]; intros Hcr cur; [done |].
  assert (Hs : chr 13 ∉ s) by (intros H; apply Hcr; by apply list_elem_of_further).
  assert (Hc : (ord c =? 13) = false).
  { apply Nat.eqb_neq. intros E. apply ord_inj in E. subst c.
    apply Hcr, list_elem_of_here. }
  cbn [replace_from startswith]. destruct (char_eqb (chr 10) c) eqn:E.
  - apply char_eqb_eq in E. subst c.
    change ([chr 13; chr 10] ++ ?x) with (chr 13 :: chr 10 :: x).
    cbn [length Nat.sub]. simpl splitlines_from. f_equal. apply IH, Hs.
  - rewrite andb_false_l.
    assert (Hlf : (ord c =? 10) = false).
    { apply Nat.eqb_neq. intros E'. apply ord_inj in E'. subst c.
      unfold char_eqb in E. by rewrite Ascii.eqb_refl in E. }
    simpl splitlines_from. rewrite Hlf, Hc. simpl andb. cbv iota.
    destruct (is_linebreak c); [f_equal |]; apply IH, Hs.
Qed.

End Lines.

(** X8.  The notice that no differences were found is the whole table
    exactly when the alignment of the two texts has no changed row: the
    contextual table never hides a difference. *)
Theorem notice_iff_no_changed_row (w : World) (reference fetched : str) :
  make_diff w reference fetched = [Difflib.Notice (py "No Differences Found")]
  <-> Forall (fun r => Difflib.found_diff r = false)
             (line_pairs w (splitlines reference) (splitlines fetched)).
Proof.
  split.
  - intros H. apply Forall_forall. intros r Hin.
    destruct (Difflib.found_diff r) eqn:Hr; [| done]. exfalso.
    pose proof (near_rows_changed 3 _ r Hin Hr) as Hs.
    rewrite <- make_table_rows in Hs. fold (make_diff w reference fetched) in Hs.
    rewrite H in Hs. simpl in Hs. by apply elem_of_nil in Hs.
  - intros H. unfold make_diff, Difflib.make_table.
    by rewrite mdiff_context_unchanged.
Qed.

(** X9.  A final line feed makes no difference to the comparison: a text
    that ends in an unfinished line and the same text with a line feed
    appended are split into the same lines, on either side. *)
Theorem final_newline_is_ignored (w : World) (reference fetched text : str) :
  match last text with
  | Some c => is_linebreak c = false
  | None => False
  end ->
  splitlines (text ++ [chr 10]) = splitlines text
  /\ make_diff w (text ++ [chr 10]) fetched = make_diff w text fetched
  /\ make_diff w reference (text ++ [chr 10]) = make_diff w reference text.
Proof.
  intros H. assert (E : splitlines (text ++ [chr 10]) = splitlines text).
  { unfold splitlines. apply splitlines_from_final_lf.
    by destruct (last text). }
  split; [done |]. unfold make_diff. by rewrite E.
Qed.

Lemma final_newline_is_ignored_witness :
  splitlines (py "MIT License" ++ [chr 10]) = splitlines (py "MIT License").
Proof.
  refine (proj1 (final_newline_is_ignored deployment [] [] (py "MIT License") _)).
  vm_compute. reflexivity.
Defined.

(** X10.  Line ending style makes no difference to the comparison: a text
    without carriage returns and its copy with every line feed turned into
    carriage return and line feed are split into the same lines, on either
    side. *)
Theorem crlf_is_ignored (w : World) (reference fetched text : str) :
  chr 13 ∉ text ->
  splitlines (replace text [chr 10] [chr 13; chr 10]) = splitlines text
  /\ make_diff w (replace text [chr 10] [chr 13; chr 10]) fetched
     = make_diff w text fetched
  /\ make_diff w reference (replace text [chr 10] [chr 13; chr 10])
     = make_diff w reference text.
Proof.
  intros H.
  assert (E : splitlines (replace text [chr 10] [chr 13; chr 10]) = splitlines text).
  { unfold splitlines. by apply splitlines_from_crlf. }
  split; [done |]. unfold make_diff. by rewrite E.
Qed.

Lemma crlf_is_ignored_witness :
  splitlines (replace mit_text [chr 10] [chr 13; chr 10]) = splitlines mit_text.
Proof.
  refine (proj1 (crlf_is_ignored deployment [] [] mit_text _)).
  vm_compute. intros H. repeat (apply elem_of_cons in H as [H | H]; [discriminate H |]).
  by apply elem_of_nil in H.
Defined.

Lemma only_first_detected_license_counts_witness :
  run (verify_license deployment (py "https://github.com/o/mit/blob/main/LICENSE") None)
  = run (verify_license deployment_two_matches
           (py "https://github.com/o/mit/blob/main/LICENSE") None).
Proof.
  apply only_first_detected_license_counts; try reflexivity.
  intros text. simpl. destruct (str_eqb text mit_text); reflexivity.
Defined.

(** ** Start-up *)

Section StartUp.

Lemma rfind_from_absent (c : ascii) (s : str) :
  c ∉ s -> forall i found, rfind_from c s i found = found.
Proof.
  induction s as [|x s IH]; intros Hc i found; [done |]. simpl.
  destruct (char_eqb x c) eqn:E.
  - apply char_eqb_eq in E. subst x. exfalso. apply Hc, list_elem_of_here.
  - apply IH. intros H. apply Hc. by apply list_elem_of_further.
Qed.

Lemma rfind_from_app (c : ascii) (a b : str) :
  forall i found,
    rfind_from c (a ++ b) i found = rfind_from c b (i + length a) (rfind_from c a i found).
Proof.
  induction a as [|x a IH]; intros i found; simpl.
  - by rewrite Nat.add_0_r.
  - rewrite IH. f_equal. lia.
Qed.

Lemma rfind_last_slash (dir name : str) :
  "/"%char ∉ name -> rfind (dir ++ py "/" ++ name) "/" = Some (length dir).
Proof.
  intros Hn. unfold rfind. rewrite rfind_from_app. simpl.
  by rewrite rfind_from_absent.
Qed.

Lemma rstrip_keeps (c : ascii) (s : str) :
  last s <> Some c -> rstrip c s = s.
Proof.
  induction s as [|x s IH]; intros H; [done |]. simpl.
  destruct s as [|y s'].
  - simpl. destruct (char_eqb x c) eqn:E; [| done].
    apply char_eqb_eq in E. subst x. by destruct H.
  - rewrite IH by exact H. done.
Qed.

Lemma rstrip_snoc (c : ascii) (s : str) : rstrip c (s ++ [c]) = rstrip c s.
Proof.
  induction s as [|x s IH]; simpl.
  - unfold char_eqb. by rewrite Ascii.eqb_refl.
  - by rewrite IH.
Qed.

Lemma last_replicate (c : ascii) (n : nat) : last (replicate (S n) c) = Some c.
Proof. induction n as [|n IH]; [done |]. exact IH. Qed.

(** The directory of a file: what stands before the slash and the name. *)
Lemma dirname_join (dir name : str) :
  dir <> [] -> last dir <> Some "/"%char -> "/"%char ∉ name ->
  dirname (dir ++ py "/" ++ name) = dir.
Proof.
  intros Hd Hl Hn. unfold dirname. rewrite rfind_last_slash by done.
  replace (take (length dir + 1) (dir ++ py "/" ++ name)) with (dir ++ py "/").
  2: { rewrite (app_assoc dir (py "/") name).
       rewrite take_app_length'; [done |]. rewrite length_app. done. }
  assert (Hne : str_eqb (dir ++ py "/") (replicate (length (dir ++ py "/")) "/"%char)
                = false).
  { destruct (str_eqb _ _) eqn:E; [| done]. exfalso.
    apply str_eqb_eq in E. rewrite length_app in E. simpl length in E.
    rewrite Nat.add_1_r in E. change (S (length dir)) with (1 + length dir) in E.
    rewrite Nat.add_comm, replicate_add in E. simpl replicate in E.
    apply app_inj_tail in E as [E _].
    destruct dir as [|x dir]; [done |]. apply Hl. rewrite E. apply last_replicate. }
  rewrite Hne. simpl negb. rewrite andb_true_r.
  destruct (dir ++ py "/") eqn:E; [by destruct dir |]. rewrite <- E.
  change (py "/") with ["/"%char]. rewrite rstrip_snoc. by apply rstrip_keeps.
Qed.

Lemma no_slash_ending (s : str) :
  last s <> Some "/"%char -> endswith s (py "/") = false.
Proof.
  intros H. destruct (endswith s (py "/")) eqn:E; [| done]. exfalso.
  apply endswith_suffix in E as [k ->]. apply H.
  change (py "/") with ["/"%char]. apply last_snoc.
Qed.

Lemma path_join_relative (dir name : str) :
  dir <> [] -> last dir <> Some "/"%char -> startswith name (py "/") = false ->
  path_join dir name = dir ++ py "/" ++ name.
Proof.
  intros Hd Hl Hs. unfold path_join. rewrite Hs.
  destruct dir as [|x dir]; [done |]. by rewrite no_slash_ending.
Qed.

End StartUp.

(** X11.  The licenses directory is the entry [licenses] next to the
    program: for a bundled executable or a script at [dir/name], loading the
    module fails with [FileNotFoundError] exactly when [dir/licenses] does
    not exist, and otherwise fixes [LICENSES_DIR] to that path; a relative
    manual name and a detected identifier are then looked up directly below
    it. *)
Theorem licenses_directory_is_next_to_program
    (p : Process) (path_exists : str -> bool) (dir name : str) :
  (if has_MEIPASS p then sys_executable p else abspath_file p) = dir ++ py "/" ++ name ->
  dir <> [] -> last dir <> Some "/"%char -> "/"%char ∉ name ->
  get_base_dir p = dir
  /\ load_module p path_exists
     = (if path_exists (dir ++ py "/licenses")
        then Loaded dir (dir ++ py "/licenses")
        else FileNotFoundError
               (py "The licenses folder is missing. Please ensure it is placed next to the executable."))
  /\ forall w : World,
       LICENSES_DIR w = dir ++ py "/licenses" ->
       (forall manual, startswith manual (py "/") = false ->
          manual_reference_path w manual = dir ++ py "/licenses/" ++ manual)
       /\ (forall spdx_id, startswith spdx_id (py "/") = false ->
             detected_reference_path w spdx_id
             = dir ++ py "/licenses/" ++ spdx_id ++ py ".txt").
Proof.
  intros Hp Hd Hl Hn.
  assert (Hb : get_base_dir p = dir).
  { unfold get_base_dir. destruct (has_MEIPASS p); rewrite Hp; by apply dirname_join. }
  split; [done | split].
  - unfold load_module. rewrite Hb.
    rewrite (path_join_relative dir (py "licenses")) by done.
    change (dir ++ py "/" ++ py "licenses") with (dir ++ py "/licenses").
    by destruct (path_exists _).
  - intros w Hw.
    assert (Hj : forall x, startswith x (py "/") = false ->
              path_join (dir ++ py "/licenses") x = dir ++ py "/licenses/" ++ x).
    { intros x Hx. rewrite path_join_relative; [| by destruct dir | | done].
      - by rewrite <- app_assoc.
      - change (py "/licenses") with (py "/license" ++ ["s"%char]).
        rewrite app_assoc, last_snoc. discriminate. }
    split.
    + intros manual Hm. unfold manual_reference_path. rewrite Hw. by apply Hj.
    + intros spdx_id Hs. unfold detected_reference_path. rewrite Hw.
      apply Hj. destruct spdx_id as [|c s]; [done |]. exact Hs.
Qed.

Lemma licenses_directory_is_next_to_program_witness :
  load_module script_process (fun path => str_eqb path (py "/srv/app/licenses"))
  = Loaded (py "/srv/app") (py "/srv/app/licenses").
Proof.
  etransitivity;
    [refine (proj1 (proj2 (licenses_directory_is_next_to_program
                             script_process (fun path => str_eqb path (py "/srv/app/licenses"))
                             (py "/srv/app") (py "main.py") _ _ _ _)))
    | vm_compute; reflexivity].
  - vm_compute. reflexivity.
  - discriminate.
  - vm_compute. discriminate.
  - vm_compute. intros H.
    repeat (apply elem_of_cons in H as [H | H]; [discriminate H |]).
    by apply elem_of_nil in H.
Defined.

(** ** Pages *)

Section PageFacts.

(** The error page is a fixed text around the detail. *)
Lemma error_page_split (detail : str) :
  nl_join (error_page_lines detail)
  = take 275 (nl_join (error_page_lines [])) ++ detail
    ++ drop 275 (nl_join (error_page_lines [])).
Proof.
  unfold nl_join, error_page_lines. simpl. rewrite <- (app_assoc detail).
  reflexivity.
Qed.

(** The form is a fixed text around the options. *)
Lemma home_page_split (license_options : str) :
  nl_join (home_page_lines license_options)
  = take 829 (nl_join (home_page_lines [])) ++ license_options
    ++ drop 829 (nl_join (home_page_lines [])).
Proof.
  unfold nl_join, home_page_lines. simpl. reflexivity.
Qed.

End PageFacts.

(** X12.  The page for an unknown manual license carries the submitted name
    as it came: the answer has status 400 and its body is one fixed text
    before the name and one fixed text behind it, whatever characters the
    name is made of. *)
Theorem error_page_carries_manual_name :
  exists before after : str,
    forall (w : World) (url u text name : str),
      validate_and_map_url url = Return u ->
      requests_get w u = Some text ->
      name <> [] ->
      os_path_exists w (manual_reference_path w name) = false ->
      exists e,
        (run (verify_license w url (Some name))).1 = Raise e
        /\ answer e = Some {| content := before ++ name ++ after;
                              response_status := 400 |}.
Proof.
  exists (take 275 (nl_join (error_page_lines [])) ++ py "Reference license '"),
         (py "' not found." ++ drop 275 (nl_join (error_page_lines []))).
  intros w url u text name Hv Hg Hne He.
  exists (unknown_manual_license name). split.
  - by rewrite (verify_manual_missing w url u text name).
  - unfold unknown_manual_license, answer, custom_http_exception_handler.
    rewrite error_page_split, <- !app_assoc. reflexivity.
Qed.

Lemma error_page_carries_manual_name_witness :
  exists before after e,
    (run (verify_license deployment (py "https://github.com/o/mit/blob/main/LICENSE")
                         (Some (py "<b>Apache</b>")))).1 = Raise e
    /\ answer e = Some {| content := before ++ py "<b>Apache</b>" ++ after;
                          response_status := 400 |}.
Proof.
  destruct error_page_carries_manual_name as (before & after & H).
  exists before, after.
  apply (H deployment (py "https://github.com/o/mit/blob/main/LICENSE")
           (py "https://raw.githubusercontent.com/o/mit/main/LICENSE") mit_text
           (py "<b>Apache</b>")).
  - vm_compute. reflexivity.
  - vm_compute. reflexivity.
  - discriminate.
  - vm_compute. reflexivity.
Defined.

(** X13.  The form offers the regular files of the directory [licenses]:
    when the directory can be listed the page is one fixed text around one
    option element per regular file, in the order of the listing, so every
    regular file is offered under its own name; when it cannot be listed
    the [OSError] escapes and no page is produced. *)
Theorem form_offers_regular_files :
  exists before after : str,
    forall d : Listing,
      (forall entries,
         os_listdir d (py "licenses") = Some entries ->
         home d = Return (before
                          ++ concat (map option_element
                                         (license_files d (py "licenses") entries))
                          ++ after)
         /\ forall f,
              f ∈ entries ->
              os_path_isfile d (path_join (py "licenses") f) = true ->
              exists pre post,
                home d = Return (pre ++ option_element f ++ post))
      /\ (os_listdir d (py "licenses") = None ->
          home d = Raise (OSError (py "licenses"))).
Proof.
  exists (take 829 (nl_join (home_page_lines []))),
         (drop 829 (nl_join (home_page_lines []))).
  intros d. split.
  - intros entries Hl.
    assert (Hh : home d = Return (take 829 (nl_join (home_page_lines []))
                                  ++ concat (map option_element
                                                 (license_files d (py "licenses") entries))
                                  ++ drop 829 (nl_join (home_page_lines [])))).
    { unfold home. rewrite Hl. by rewrite home_page_split. }
    split; [exact Hh |].
    intros f Hin Hf.
    assert (Hoff : f ∈ license_files d (py "licenses") entries).
    { apply list_elem_of_In, filter_In. split; [by apply list_elem_of_In | done]. }
    apply list_elem_of_split in Hoff as (l1 & l2 & Hsplit).
    rewrite Hh, Hsplit, map_app, concat_app, map_cons, concat_cons.
    exists (take 829 (nl_join (home_page_lines [])) ++ concat (map option_element l1)),
           (concat (map option_element l2) ++ drop 829 (nl_join (home_page_lines []))).
    rewrite <- !app_assoc. reflexivity.
  - intros Hl. unfold home. by rewrite Hl.
Qed.

Lemma form_offers_regular_files_witness :
  exists pre post,
    home working_directory = Return (pre ++ option_element (py "MIT.txt") ++ post).
Proof.
  destruct form_offers_regular_files as (before & after & H).
  destruct (H working_directory) as [H1 _].
  destruct (H1 [py "MIT.txt"; py "old"]) as [_ H2]; [vm_compute; reflexivity |].
  apply H2; [apply list_elem_of_here | vm_compute; reflexivity].
Defined.

(** X14.  What the form offers, the handler accepts: if every regular file
    that [home] sees in [licenses] also exists below [LICENSES_DIR], then
    submitting the name of an offered file as manual license, with a URL
    that is fetched, never ends in the unknown-manual-license error; the
    handler goes on to read that file. *)
Theorem offered_license_passes_lookup
    (d : Listing) (w : World) (entries : list str) (f url u text : str) :
  os_listdir d (py "licenses") = Some entries ->
  f ∈ license_files d (py "licenses") entries ->
  f <> [] ->
  (forall g, os_path_isfile d (path_join (py "licenses") g) = true ->
             os_path_exists w (path_join (LICENSES_DIR w) g) = true) ->
  validate_and_map_url url = Return u ->
  requests_get w u = Some text ->
  (run (verify_license w url (Some f))).2
  = [HttpGet u; PathExists (path_join (LICENSES_DIR w) f);
     OpenRead (path_join (LICENSES_DIR w) f)]
  /\ forall name, (run (verify_license w url (Some f))).1
                  <> Raise (unknown_manual_license name).
Proof.
  intros Hl Hin Hne Hco Hv Hg.
  apply list_elem_of_In, filter_In in Hin as [_ Hf].
  pose proof (Hco f Hf) as He.
  rewrite (verify_manual_found w url u text f Hv Hg Hne He). simpl.
  split; [done |]. intros name. by destruct (read_file w _).
Qed.

Lemma offered_license_passes_lookup_witness :
  (run (verify_license deployment (py "https://github.com/o/mit/blob/main/LICENSE")
                       (Some (py "MIT.txt")))).2
  = [HttpGet (py "https://raw.githubusercontent.com/o/mit/main/LICENSE");
     PathExists (py "/srv/app/licenses/MIT.txt");
     OpenRead (py "/srv/app/licenses/MIT.txt")].
Proof.
  refine (proj1 (offered_license_passes_lookup working_directory deployment
                   [py "MIT.txt"; py "old"] (py "MIT.txt")
                   (py "https://github.com/o/mit/blob/main/LICENSE")
                   (py "https://raw.githubusercontent.com/o/mit/main/LICENSE")
                   mit_text _ _ _ _ _ _)).
  - vm_compute. reflexivity.
  - vm_compute. apply list_elem_of_here.
  - discriminate.
  - intros g H. apply str_eqb_eq in H. unfold path_join in *.
    destruct (startswith g (py "/")) eqn:E.
    + subst g. vm_compute in E. discriminate E.
    + vm_compute in H. injection H as ->.
      vm_compute. reflexivity.
  - vm_compute. reflexivity.
  - vm_compute. reflexivity.
Defined.
